(** * SnapEnhance native library: the two interceptors of [library.cpp]

    A shallow embedding of [fstat_hook] and [unaryCall_hook]
    (src/native/jni/src/library.cpp) and the properties of the
    specification that concern them.

    - The file-status interceptor works on a 256-byte [char] array; the
      array, [snprintf], [readlink] and the conversion to [std::string]
      are modelled on lists of characters, the file system as a finite
      map of symbolic links and a finite set of existing paths.
    - The unary-call interceptor works on raw memory; memory is a finite
      map from addresses to cells, with the table of live [malloc] blocks
      next to it.  Machine addresses are 64-bit ([uintptr_t] of the
      arm64 target), integers in [Z] with the wrap-around written out.
    - Undefined behaviour of the C++ code (reading through a null or
      dangling pointer, reading past an array) is the outcome [Fault].
    - Calls that leave the interceptor (the Java callback, [malloc],
      [free], [memcpy], the original functions) are recorded in a trace,
      in the order in which they happen.  [LOGD] lines are not modelled.
    - [init], [load_config] and [JNI_OnLoad] work on the file-scope
      variables; JNI, the helpers of util.h and the hooking library are
      an environment they are given, and the hooks they request are
      recorded. *)

From Stdlib Require Import ZArith String Ascii List Lia DecimalString.
From Stdlib.Strings Require Import Byte.
From Stdlib Require DecimalFacts.
From stdpp Require Import gmap strings list.

Open Scope Z_scope.

(** ** Outcomes *)

(** A run either returns a value in a final state, or stops at the first
    operation whose behaviour is undefined, in the state reached there. *)
Inductive outcome (A W : Type) : Type :=
| Done (a : A) (w : W)
| Fault (w : W).

Arguments Done {A W} a w.
Arguments Fault {A W} w.

(** ** Character arrays and strings *)

Definition NUL : ascii := Ascii.zero.

(** The characters of a C string stored in an array: those before the
    first terminator.  An array without a terminator has none: reading it
    as a string runs past its end. *)
Fixpoint cstr (buf : list ascii) : option (list ascii) :=
  match buf with
  | [] => None
  | c :: rest =>
      if Ascii.eqb c NUL then Some []
      else match cstr rest with
           | Some s => Some (c :: s)
           | None => None
           end
  end.

(** Writing [src] at the start of the array [buf]; what lies behind the
    written characters stays. *)
Definition overwrite (buf src : list ascii) : list ascii :=
  src ++ drop (List.length src) buf.

(** [snprintf(buf, size, ...)] with formatted text [s]: at most [size - 1]
    characters, then the terminator. *)
Definition snprintf (buf : list ascii) (size : nat) (s : string) : list ascii :=
  overwrite buf (take (size - 1) (list_ascii_of_string s) ++ [NUL]).

(** [%d] *)
Definition format_int (n : Z) : string :=
  NilZero.string_of_int (Z.to_int n).

Fixpoint starts_with (pat s : list ascii) : bool :=
  match pat, s with
  | [], _ => true
  | _ :: _, [] => false
  | p :: pat', c :: s' => Ascii.eqb p c && starts_with pat' s'
  end.

Fixpoint find_from (pat s : list ascii) (i : nat) : option nat :=
  if starts_with pat s then Some i
  else match s with
       | [] => None
       | _ :: s' => find_from pat s' (S i)
       end.

(** [s.find(pat)]: the first position of [pat] in [s]; [None] is
    [std::string::npos]. *)
Definition string_find (s pat : string) : option nat :=
  find_from (list_ascii_of_string pat) (list_ascii_of_string s) 0.

Definition found (r : option nat) : bool :=
  match r with Some _ => true | None => false end.

(** ** The file-status interceptor *)

(** Modelled from the spec: [native_config_t] of config.h, which is not
    among the sources; the spec gives it as two boolean flags, and
    [load_config] assigns the two fields named here. *)
Record native_config_t : Type := {
  disable_bitmoji : bool;
  disable_metrics : bool
}.

Definition METRICS_MARKER : string := "files/blizzardv2/queues".
Definition BITMOJI_MARKER : string := "com.snap.file_manager_4_SCContent".
Definition NAME_SIZE : nat := 256.

(** What leaves the interceptor: a file removed, the original primitive
    called. *)
Inductive fs_event : Type :=
| EvUnlink (path : string)
| EvFstat (fd buf : Z).

Section FstatModel.

(** The memory of the caller, where the [struct stat] lives.  The
    interceptor has no operation on it. *)
Variable mem : Type.

Record os : Type := {
  links : gmap string string;   (* symbolic links and their targets *)
  files : gset string;          (* the paths that exist *)
  user_mem : mem
}.

Definition fs_world : Type := (os * list fs_event)%type.

(** [readlink(path, buf, bufsiz)]: the target of the link is written at
    the start of [buf], cut at [bufsiz] characters, with no terminator;
    on failure [buf] is left as it is.  The result is not looked at by
    the caller. *)
Definition readlink (o : os) (path : string) (buf : list ascii) (bufsiz : nat)
  : list ascii :=
  match links o !! path with
  | Some target => overwrite buf (take bufsiz (list_ascii_of_string target))
  | None => buf
  end.

(** [unlink(path)]: the path is gone afterwards. *)
Definition unlink (o : os) (path : string) : os :=
  {| links := links o; files := files o ∖ {[path]}; user_mem := user_mem o |}.

Variable native_config : native_config_t.
Variable fstat_original : Z -> Z -> os -> Z * os.

Definition fstat_hook (fd buf : Z) (o : os) : outcome Z fs_world :=
  let name := replicate NAME_SIZE NUL in
  let name := snprintf name NAME_SIZE ("/proc/self/fd/" ++ format_int fd) in
  match cstr name with
  | None => Fault (o, [])
  | Some link =>
      let name := readlink o (string_of_list_ascii link) name NAME_SIZE in
      match cstr name with
      | None => Fault (o, [])
      | Some chars =>
          let fileName := string_of_list_ascii chars in
          if disable_metrics native_config
             && found (string_find fileName METRICS_MARKER)
          then (* unlink(name): the array read as a string once more *)
               Done (-1) (unlink o fileName, [EvUnlink fileName])
          else if disable_bitmoji native_config
                  && found (string_find fileName BITMOJI_MARKER)
          then Done (-1) (o, [])
          else let (r, o') := fstat_original fd buf o in
               Done r (o', [EvFstat fd buf])
      end
  end.

End FstatModel.

Arguments links {mem} _.
Arguments files {mem} _.
Arguments user_mem {mem} _.

(** ** The unary-call interceptor: data *)

(** 64-bit unsigned arithmetic of [uintptr_t] and [size_t]. *)
Definition WORD : Z := 2 ^ 64.
Definition wadd (a b : Z) : Z := (a + b) mod WORD.
Definition wsub (a b : Z) : Z := (a - b) mod WORD.

(** The conversion of a [size_t] to [jsize], a signed 32-bit integer. *)
Definition to_jsize (n : Z) : Z :=
  let m := n mod 2 ^ 32 in
  if m <? 2 ^ 31 then m else m - 2 ^ 32.

Module grpc.

(** Modelled from the spec: the two structures of grpc.h, which is not
    among the sources.  The spec gives the slice buffer as
    {ref_counter_block, data_pointer, length}; the fields carry the
    names under which [unaryCall_hook] reads and writes them, and
    pointers are addresses. *)
Record ref_counted_slice : Type := {
  ref_counter : Z;
  length : Z;
  data : Z
}.

Record grpc_byte_buffer : Type := {
  slice_buffer : Z
}.

End grpc.

(** The Java object returned by [onNativeUnaryCall], as far as the
    interceptor reads it: the fields [canceled] (signature Z) and [buffer]
    (signature [B), the latter an array, not the null reference. *)
Record NativeRequestData : Type := {
  canceled : bool;
  buffer : list byte
}.

(** A byte of raw memory: allocated and not yet written, or a value. *)
Inductive memval : Type :=
| Undef
| Val (b : byte).

(** The native memory the interceptor can reach.  Structures are kept by
    address in typed tables; [cells] is raw memory, [blocks] the live
    blocks of the allocator (base and size).  No table has an entry at a
    null or dangling address. *)
Record store : Type := {
  ptrs : gmap Z Z;                              (* grpc_byte_buffer * *)
  byte_buffers : gmap Z grpc.grpc_byte_buffer;
  slices : gmap Z grpc.ref_counted_slice;
  cells : gmap Z memval;
  blocks : gmap Z Z
}.

Record call_args : Type := {
  unk1 : Z;
  uri : string;
  buffer_ptr : Z;
  unk4 : Z;
  unk5 : Z;
  unk6 : Z
}.

Inductive event : Type :=
| EvGetRegion (src n : Z)                       (* SetByteArrayRegion reads n bytes at src *)
| EvCallback (u : string) (payload : list byte) (* CallObjectMethod: onNativeUnaryCall *)
| EvMalloc (size result : Z)
| EvMemcpy (dst src n : Z)
| EvMemcpyArray (dst : Z) (bytes : list byte)   (* memcpy out of the Java array *)
| EvFree (p : Z)
| EvUnaryCall (a : call_args) (st : store).     (* unaryCall_original, and the memory it is given *)

(** The state of a run: memory, the function's static local (unset until
    control first passes its declaration) and the calls made so far. *)
Record world : Type := {
  w_store : store;
  ref_counter_struct_size : option Z;
  w_trace : list event
}.

Definition M (A : Type) : Type := world -> outcome A world.

#[global] Instance M_ret : MRet M := fun A a w => Done a w.

#[global] Instance M_bind : MBind M := fun A B k m w =>
  match m w with
  | Done a w' => k a w'
  | Fault w' => Fault w'
  end.

#[global] Instance M_fmap : FMap M := fun A B f m w =>
  match m w with
  | Done a w' => Done (f a) w'
  | Fault w' => Fault w'
  end.

Definition fault {A : Type} : M A := fun w => Fault w.

(** The world after further calls, and with another memory. *)
Definition log (w : world) (es : list event) : world :=
  {| w_store := w_store w;
     ref_counter_struct_size := ref_counter_struct_size w;
     w_trace := w_trace w ++ es |}.

Definition set_store (w : world) (st : store) : world :=
  {| w_store := st;
     ref_counter_struct_size := ref_counter_struct_size w;
     w_trace := w_trace w |}.

Definition emit (e : event) : M unit := fun w => Done tt (log w [e]).

Definition get_store : M store := fun w => Done (w_store w) w.

Definition put_store (st : store) : M unit := fun w => Done tt (set_store w st).

(** The structure at address [p] in one of the typed tables; none at the
    null address. *)
Definition at_addr {V : Type} (table : gmap Z V) (p : Z) : option V :=
  if p =? 0 then None else table !! p.

(** Reading through the pointer [p]: undefined when it is null or
    dangling. *)
Definition deref {V : Type} (table : store -> gmap Z V) (p : Z) : M V :=
  st ← get_store;
  match at_addr (table st) p with
  | Some v => mret v
  | None => fault
  end.

Definition with_slices (st : store) (s : gmap Z grpc.ref_counted_slice) : store :=
  {| ptrs := ptrs st; byte_buffers := byte_buffers st; slices := s;
     cells := cells st; blocks := blocks st |}.

Definition with_heap (st : store) (c : gmap Z memval) (b : gmap Z Z) : store :=
  {| ptrs := ptrs st; byte_buffers := byte_buffers st; slices := slices st;
     cells := c; blocks := b |}.

(** Assigning to a field of the slice at [p]. *)
Definition assign (p : Z) (upd : grpc.ref_counted_slice -> grpc.ref_counted_slice)
  : M unit :=
  s ← deref slices p;
  st ← get_store;
  put_store (with_slices st (<[p := upd s]> (slices st))).

Definition set_ref_counter (v : Z) (s : grpc.ref_counted_slice) :=
  {| grpc.ref_counter := v; grpc.length := grpc.length s; grpc.data := grpc.data s |}.
Definition set_length (v : Z) (s : grpc.ref_counted_slice) :=
  {| grpc.ref_counter := grpc.ref_counter s; grpc.length := v; grpc.data := grpc.data s |}.
Definition set_data (v : Z) (s : grpc.ref_counted_slice) :=
  {| grpc.ref_counter := grpc.ref_counter s; grpc.length := grpc.length s; grpc.data := v |}.

(** ** Raw memory *)

Fixpoint load_cells (m : gmap Z memval) (a : Z) (n : nat) : option (list memval) :=
  match n with
  | O => Some []
  | S k =>
      match m !! a, load_cells m (a + 1) k with
      | Some c, Some cs => Some (c :: cs)
      | _, _ => None
      end
  end.

(** Writing is allowed into allocated cells only. *)
Fixpoint store_cells (m : gmap Z memval) (a : Z) (cs : list memval)
  : option (gmap Z memval) :=
  match cs with
  | [] => Some m
  | c :: cs' =>
      match m !! a with
      | Some _ => store_cells (<[a := c]> m) (a + 1) cs'
      | None => None
      end
  end.

Fixpoint alloc_cells (m : gmap Z memval) (a : Z) (n : nat) : gmap Z memval :=
  match n with
  | O => m
  | S k => <[a := Undef]> (alloc_cells m (a + 1) k)
  end.

Fixpoint free_cells (m : gmap Z memval) (a : Z) (n : nat) : gmap Z memval :=
  match n with
  | O => m
  | S k => delete a (free_cells m (a + 1) k)
  end.

Fixpoint values (cs : list memval) : option (list byte) :=
  match cs with
  | [] => Some []
  | Undef :: _ => None
  | Val b :: cs' =>
      match values cs' with
      | Some bs => Some (b :: bs)
      | None => None
      end
  end.

(** The bytes of [n] initialised cells at [a]. *)
Definition load_bytes (m : gmap Z memval) (a : Z) (n : nat) : option (list byte) :=
  match load_cells m a n with
  | Some cs => values cs
  | None => None
  end.

(** ** The unary-call interceptor: operations and the hook *)

Section UnaryCallModel.

(** The hooked function behind its trampoline: a result and the memory
    it leaves. *)
Variable unaryCall_original : call_args -> store -> Z * store.

(** The Java method [onNativeUnaryCall(String, byte[])]; [None] is the
    null reference.  It receives copies and has no access to the native
    memory. *)
Variable onNativeUnaryCall : string -> list byte -> option NativeRequestData.

(** The allocator's choice: the address [malloc] returns for a request
    of the given size in the given memory, 0 when it fails. *)
Variable malloc_result : store -> Z -> Z.

(** [NewByteArray(len)] and [SetByteArrayRegion(array, 0, len, src)]:
    the length arrives as a [jsize]; a negative one yields no array; the
    bytes are read from native memory. *)
Definition SetByteArrayRegion (len src : Z) : M (list byte) :=
  let n := to_jsize len in
  emit (EvGetRegion src n);;
  st ← get_store;
  if n <? 0 then fault
  else match load_bytes (cells st) src (Z.to_nat n) with
       | Some bs => mret bs
       | None => fault
       end.

Definition CallObjectMethod (u : string) (payload : list byte)
  : M (option NativeRequestData) :=
  emit (EvCallback u payload);;
  mret (onNativeUnaryCall u payload).

(** A new block holds unwritten cells. *)
Definition malloc (size : Z) : M Z :=
  st ← get_store;
  let p := malloc_result st size in
  emit (EvMalloc size p);;
  (if p =? 0 then mret tt
   else put_store (with_heap st (alloc_cells (cells st) p (Z.to_nat size))
                                (<[p := size]> (blocks st))));;
  mret p.

(** [free(p)]: nothing for a null pointer; undefined for a pointer that
    is not the base of a live block. *)
Definition free (p : Z) : M unit :=
  emit (EvFree p);;
  st ← get_store;
  if p =? 0 then mret tt
  else match blocks st !! p with
       | Some size =>
           put_store (with_heap st (free_cells (cells st) p (Z.to_nat size))
                                   (delete p (blocks st)))
       | None => fault
       end.

(** [memcpy(dst, src, n)] between two regions of native memory.  A null
    pointer is undefined whatever the count, as is a cell that is not
    allocated. *)
Definition memcpy (dst src n : Z) : M unit :=
  emit (EvMemcpy dst src n);;
  st ← get_store;
  if (dst =? 0) || (src =? 0) then fault
  else match load_cells (cells st) src (Z.to_nat n) with
       | None => fault
       | Some cs =>
           match store_cells (cells st) dst cs with
           | None => fault
           | Some m => put_store (with_heap st m (blocks st))
           end
       end.

(** [memcpy(dst, elems, len)] where [elems] are the elements of a Java
    array, obtained with [GetByteArrayElements]. *)
Definition memcpy_array (dst : Z) (elems : list byte) : M unit :=
  emit (EvMemcpyArray dst elems);;
  st ← get_store;
  if dst =? 0 then fault
  else match store_cells (cells st) dst (Val <$> elems) with
       | None => fault
       | Some m => put_store (with_heap st m (blocks st))
       end.

(** [const static auto x = init;]: [init] is evaluated the first time
    control passes the declaration, and never again. *)
Definition static_local (init : M Z) : M Z := fun w =>
  match ref_counter_struct_size w with
  | Some v => Done v w
  | None =>
      match init w with
      | Done v w' =>
          Done v {| w_store := w_store w';
                    ref_counter_struct_size := Some v;
                    w_trace := w_trace w' |}
      | Fault w' => Fault w'
      end
  end.

Definition call_original (a : call_args) : M Z :=
  st ← get_store;
  emit (EvUnaryCall a st);;
  let (r, st') := unaryCall_original a st in
  put_store st';;
  mret r.

(** The world in which the original dispatch, called in [w], leaves the
    caller. *)
Definition forwarded (a : call_args) (w : world) : world :=
  set_store (log w [EvUnaryCall a (w_store w)])
            (unaryCall_original a (w_store w)).2.

Definition unaryCall_hook (a : call_args) : M Z :=
  byte_buffer_p ← deref ptrs (buffer_ptr a);
  byte_buffer ← deref byte_buffers byte_buffer_p;
  let slice_buffer := grpc.slice_buffer byte_buffer in
  rc ← grpc.ref_counter <$> deref slices slice_buffer;
  if rc =? 0 then call_original a
  else
    len ← grpc.length <$> deref slices slice_buffer;
    src ← grpc.data <$> deref slices slice_buffer;
    jni_buffer_array ← SetByteArrayRegion len src;
    native_request_data_object ← CallObjectMethod (uri a) jni_buffer_array;
    match native_request_data_object with
    | None => call_original a
    | Some obj =>
        if canceled obj then mret 0
        else
          let new_buffer_data := buffer obj in
          let new_buffer_length := Z.of_nat (List.length new_buffer_data) in
          size ← static_local
                   (d ← grpc.data <$> deref slices slice_buffer;
                    r ← grpc.ref_counter <$> deref slices slice_buffer;
                    mret (wsub d r));
          new_ref_counter ← malloc (wadd size new_buffer_length);
          old ← grpc.ref_counter <$> deref slices slice_buffer;
          memcpy new_ref_counter old size;;
          memcpy_array (wadd new_ref_counter size) new_buffer_data;;
          old ← grpc.ref_counter <$> deref slices slice_buffer;
          free old;;
          assign slice_buffer (set_ref_counter new_ref_counter);;
          assign slice_buffer (set_length new_buffer_length);;
          assign slice_buffer (set_data (wadd new_ref_counter size));;
          call_original a
    end.

End UnaryCallModel.

(** ** What a call finds in memory *)

(** The slice buffer an interception works on: the address in the
    [slice_buffer] field of the byte buffer that [buffer_ptr] leads to,
    and the structure there, when the three pointers on the way can be
    followed. *)
Definition slice_of (st : store) (a : call_args)
  : option (Z * grpc.ref_counted_slice) :=
  match at_addr (ptrs st) (buffer_ptr a) with
  | None => None
  | Some p =>
      match at_addr (byte_buffers st) p with
      | None => None
      | Some bb =>
          match at_addr (slices st) (grpc.slice_buffer bb) with
          | None => None
          | Some sb => Some (grpc.slice_buffer bb, sb)
          end
      end
  end.

(** The payload handed to the decision-maker: the [length] bytes at
    [data], the length taken as a [jsize]. *)
Definition payload_of (st : store) (sb : grpc.ref_counted_slice) : option (list byte) :=
  let n := to_jsize (grpc.length sb) in
  if n <? 0 then None else load_bytes (cells st) (grpc.data sb) (Z.to_nat n).

(** The calls every interception makes before it has the decision: the
    payload read, the decision-maker asked. *)
Definition asked (a : call_args) (sb : grpc.ref_counted_slice) (payload : list byte)
  : list event :=
  [EvGetRegion (grpc.data sb) (to_jsize (grpc.length sb)); EvCallback (uri a) payload].

Definition unmapped (m : gmap Z memval) (a : Z) : bool :=
  match m !! a with Some _ => false | None => true end.

(** Two blocks that share no address; a block of size 0 still has an
    address of its own. *)
Definition apart (p n q k : Z) : bool :=
  (p + Z.max n 1 <=? q) || (q + Z.max k 1 <=? p).

(** What the allocator owes for a successful [malloc(n)] returning [p]: a
    non-null block inside the address space, none of whose bytes is in
    use, away from every live block. *)
Definition fresh_block (st : store) (p n : Z) : bool :=
  (0 <? p) && (p + n <? WORD)
  && forallb (fun i => unmapped (cells st) (p + Z.of_nat i)) (seq 0 (Z.to_nat n))
  && forallb (fun b => apart p n b.1 b.2) (map_to_list (blocks st)).

(** The header size cached in the static local, if there is one, is [hs]. *)
Definition cache_agrees (w : world) (hs : Z) : bool :=
  match ref_counter_struct_size w with
  | Some cached => cached =? hs
  | None => true
  end.

(** The calls to the original functions in a trace. *)
Definition is_unary_call (e : event) : bool :=
  match e with EvUnaryCall _ _ => true | _ => false end.

Definition is_fstat (e : fs_event) : bool :=
  match e with EvFstat _ _ => true | _ => false end.

(** A string without terminator inside. *)
Definition nul_free (s : list ascii) : bool :=
  forallb (fun c => negb (Ascii.eqb c NUL)) s.

(** The name the interceptor hands to [readlink] for the descriptor. *)
Definition proc_link (fd : Z) : string := "/proc/self/fd/" ++ format_int fd.

(** ** A concrete scene

    Three requests in one memory.  The first has a 4-byte header before a
    3-byte payload, the second an 8-byte header before a 1-byte payload,
    the third a slice buffer without reference counter. *)

Fixpoint with_bytes (m : gmap Z memval) (a : Z) (bs : list byte) : gmap Z memval :=
  match bs with
  | [] => m
  | b :: bs' => <[a := Val b]> (with_bytes m (a + 1) bs')
  end.

Definition demo_store : store :=
  {| ptrs := {[ 100 := 200; 101 := 201; 102 := 202 ]};
     byte_buffers := {[ 200 := {| grpc.slice_buffer := 300 |};
                        201 := {| grpc.slice_buffer := 301 |};
                        202 := {| grpc.slice_buffer := 302 |} ]};
     slices :=
       {[ 300 := {| grpc.ref_counter := 1000; grpc.length := 3; grpc.data := 1004 |};
          301 := {| grpc.ref_counter := 5000; grpc.length := 1; grpc.data := 5008 |};
          302 := {| grpc.ref_counter := 0; grpc.length := 0; grpc.data := 0 |} ]};
     cells :=
       with_bytes
         (with_bytes ∅ 1000 [x11; x22; x33; x44; x61; x62; x63])
         5000 [xa1; xa2; xa3; xa4; xa5; xa6; xa7; xa8; x7a];
     blocks := {[ 1000 := 7; 5000 := 9 ]} |}.

Definition demo_args (bp : Z) : call_args :=
  {| unk1 := 1; uri := "/snap/Send"; buffer_ptr := bp; unk4 := 4; unk5 := 5; unk6 := 6 |}.

Definition demo_world : world :=
  {| w_store := demo_store; ref_counter_struct_size := None; w_trace := [] |}.

(** An original dispatch that returns 77 and leaves memory alone. *)
Definition demo_original (a : call_args) (st : store) : Z * store := (77, st).

(** An allocator with two places to give, and one with none. *)
Definition demo_malloc (st : store) (n : Z) : Z :=
  match blocks st !! 2000 with
  | None => 2000
  | Some _ => 3000
  end.

Definition no_memory (st : store) (n : Z) : Z := 0.

Definition says_nothing (u : string) (payload : list byte) : option NativeRequestData :=
  None.

Definition says_cancel (u : string) (payload : list byte) : option NativeRequestData :=
  Some {| canceled := true; buffer := payload |}.

Definition says_rewrite (u : string) (payload : list byte) : option NativeRequestData :=
  Some {| canceled := false; buffer := [x01; x02] |}.

(** The world a run ends in, returned or not. *)
Definition final {A : Type} (o : outcome A world) : world :=
  match o with
  | Done _ w => w
  | Fault w => w
  end.

(** The world after the first request has been rewritten. *)
Definition demo_world_2 : world :=
  final (unaryCall_hook demo_original says_rewrite demo_malloc (demo_args 100) demo_world).

(** The world after the second request has been rewritten as well. *)
Definition demo_world_3 : world :=
  final (unaryCall_hook demo_original says_rewrite demo_malloc (demo_args 101) demo_world_2).

(** ** A concrete file system

    Descriptor 3 is open on one file, which exists.  The status buffer of
    the caller is a number; the original primitive writes 1 into it. *)

Definition demo_os (target : string) : os Z :=
  {| links := {[ "/proc/self/fd/3"%string := target ]};
     files := {[ target ]};
     user_mem := 0 |}.

Definition demo_fstat (fd buf : Z) (o : os Z) : Z * os Z :=
  (0, {| links := links o; files := files o; user_mem := 1 |}).

Definition all_on : native_config_t :=
  {| disable_bitmoji := true; disable_metrics := true |}.

Definition metrics_path : string :=
  "/data/user/0/com.snapchat.android/files/blizzardv2/queues/q1".

Definition bitmoji_path : string :=
  "/data/user/0/com.snapchat.android/files/com.snap.file_manager_4_SCContent_1/x".

Fixpoint filler (n : nat) : string :=
  match n with
  | O => EmptyString
  | S k => String "d" (filler k)
  end.

(** Two paths of more than 256 characters, the marker behind the 256th. *)
Definition long_metrics_path : string :=
  "/data/" ++ filler 260 ++ "/files/blizzardv2/queues/q1".

Definition long_bitmoji_path : string :=
  "/data/" ++ filler 260 ++ "/com.snap.file_manager_4_SCContent_1/x".

(** ** Further notions for the file-status interceptor *)

(** The values of the C type [int], which a descriptor is. *)
Definition int_range (n : Z) : Prop := - 2 ^ 31 <= n < 2 ^ 31.

(** [pat] occurs in [s]. *)
Definition contains (s pat : string) : Prop :=
  exists before rest,
    list_ascii_of_string s = before ++ list_ascii_of_string pat ++ rest.

(** What the array holds as a string after [readlink] has written the
    link target [target] over the text "/proc/self/fd/N": the target, and
    behind it what is left of that text when the target is shorter. *)
Definition seen_name (fd : Z) (target : string) : string :=
  string_of_list_ascii
    (list_ascii_of_string target
     ++ drop (String.length target) (list_ascii_of_string (proc_link fd))).

(** The characters [%d] prints. *)
Definition int_chars : list ascii := list_ascii_of_string "-0123456789".

(** ** Further notions for the unary-call interceptor *)

(** The state in which a request can be rewritten: its slice buffer has a
    reference counter, the counter's block is live and starts with the
    [hs] header cells [hdr], [hs] being the distance from the block to
    the data, and the payload [payload] can be read. *)
Definition slice_invariant (st : store) (a : call_args)
    (hs : Z) (hdr : list memval) (payload : list byte) : Prop :=
  exists sp sb sz,
    slice_of st a = Some (sp, sb)
    /\ grpc.ref_counter sb <> 0
    /\ wsub (grpc.data sb) (grpc.ref_counter sb) = hs
    /\ payload_of st sb = Some payload
    /\ load_cells (cells st) (grpc.ref_counter sb) (Z.to_nat hs) = Some hdr
    /\ blocks st !! grpc.ref_counter sb = Some sz.

(** The interceptor applied to one request after the other; a run that
    stops leaves its world to the next. *)
Fixpoint intercept_all
    (unaryCall_original : call_args -> store -> Z * store)
    (onNativeUnaryCall : string -> list byte -> option NativeRequestData)
    (malloc_result : store -> Z -> Z)
    (requests : list call_args) (w : world) : world :=
  match requests with
  | [] => w
  | a :: rest =>
      intercept_all unaryCall_original onNativeUnaryCall malloc_result rest
        (final (unaryCall_hook unaryCall_original onNativeUnaryCall malloc_result a w))
  end.

(** A memory in which a fourth request shares the block of the first. *)
Definition shared_store : store :=
  {| ptrs := <[103 := 203]> (ptrs demo_store);
     byte_buffers := <[203 := {| grpc.slice_buffer := 303 |}]> (byte_buffers demo_store);
     slices := <[303 := {| grpc.ref_counter := 1000; grpc.length := 3;
                           grpc.data := 1004 |}]> (slices demo_store);
     cells := cells demo_store;
     blocks := blocks demo_store |}.

Definition shared_world : world :=
  {| w_store := shared_store; ref_counter_struct_size := None; w_trace := [] |}.

(** The world after the first request has been rewritten there. *)
Definition shared_world_2 : world :=
  final (unaryCall_hook demo_original says_rewrite demo_malloc (demo_args 100) shared_world).

(** ** Initialisation and configuration: [init], [load_config], [JNI_OnLoad] *)

(** The file-scope variables of library.cpp.  Pointers and JNI handles
    are numbers, 0 for [nullptr]; [native_config] is [None] while the
    pointer is null and holds the object it points to afterwards. *)
Module globals.

Record t : Type := {
  native_config : option native_config_t;
  java_vm : Z;
  fstat_original : Z;
  native_lib_object : Z;
  native_lib_on_unary_call_method : Z;
  unaryCall_original : Z
}.

(** Static storage is zero-initialised. *)
Definition initial : t :=
  {| native_config := None; java_vm := 0; fstat_original := 0;
     native_lib_object := 0; native_lib_on_unary_call_method := 0;
     unaryCall_original := 0 |}.

End globals.

(** The result of [util::get_module], as far as [init] reads it. *)
Record module_info_t : Type := {
  base : Z;
  size : Z
}.

(** What [init] and [JNI_OnLoad] call and do not define: the allocator's
    [new], JNI, the helpers of util.h and the hooking library.  Each is
    taken as given. *)
Record environment : Type := {
  new_native_config_t : native_config_t;
  NewGlobalRef : Z -> Z;
  GetMethodID : Z -> string -> string -> Z;
  get_module : string -> module_info_t;
  DobbySymbolResolver : string -> string -> Z;
  find_signature : Z -> Z -> string -> Z;
  trampoline : Z -> Z
}.

Inductive replacement : Type :=
| fstat_hook_fn
| unaryCall_hook_fn.

Inductive init_event : Type :=
| EvLoadLibrary (name : string)
| EvDobbyHook (target : Z) (by_fn : replacement)
| EvRegisterNatives (class : string) (methods : list (string * string)).

Definition is_hook_request (e : init_event) : bool :=
  match e with EvDobbyHook _ _ => true | _ => false end.

Definition UNARY_CALL_SIGNATURE : string :=
  "FD 7B BA A9 FC 6F 01 A9 FA 67 02 A9 F8 5F 03 A9 F6 57 04 A9 F4 4F 05 A9 FD 03 00 91 FF 43 13 D1".

Definition JNI_VERSION_1_6 : Z := 65542.

(** The process as these functions see it: the variables, and the calls
    made to the outside so far. *)
Definition process : Type := (globals.t * list init_event)%type.

Section Library.

Variable env : environment.

Definition init (clazz classloader : Z) (s : process) : process :=
  let (g, evs) := s in
  let g :=
    {| globals.native_config := Some (new_native_config_t env);
       globals.java_vm := globals.java_vm g;
       globals.fstat_original := globals.fstat_original g;
       globals.native_lib_object := NewGlobalRef env clazz;
       globals.native_lib_on_unary_call_method :=
         GetMethodID env clazz "onNativeUnaryCall"
           "(Ljava/lang/String;[B)Lme/rhunk/snapenhance/nativelib/NativeRequestData;";
       globals.unaryCall_original := globals.unaryCall_original g |} in
  let evs := evs ++ [EvLoadLibrary "client"] in
  let client_module := get_module env "libclient.so" in
  if base client_module =? 0 then (g, evs)
  else
    let fstat_target := DobbySymbolResolver env "libc.so" "fstat" in
    let g :=
      {| globals.native_config := globals.native_config g;
         globals.java_vm := globals.java_vm g;
         globals.fstat_original := trampoline env fstat_target;
         globals.native_lib_object := globals.native_lib_object g;
         globals.native_lib_on_unary_call_method :=
           globals.native_lib_on_unary_call_method g;
         globals.unaryCall_original := globals.unaryCall_original g |} in
    let evs := evs ++ [EvDobbyHook fstat_target fstat_hook_fn] in
    let unaryCall_func :=
      find_signature env (base client_module) (size client_module)
        UNARY_CALL_SIGNATURE in
    if unaryCall_func =? 0 then (g, evs)
    else
      ({| globals.native_config := globals.native_config g;
          globals.java_vm := globals.java_vm g;
          globals.fstat_original := globals.fstat_original g;
          globals.native_lib_object := globals.native_lib_object g;
          globals.native_lib_on_unary_call_method :=
            globals.native_lib_on_unary_call_method g;
          globals.unaryCall_original := trampoline env unaryCall_func |},
       evs ++ [EvDobbyHook unaryCall_func unaryCall_hook_fn]).

(** [load_config]: the two boolean fields of the Java object are written
    through [native_config], which is not tested. *)
Definition load_config (disableBitmoji disableMetrics : bool) (s : process)
  : outcome unit process :=
  let (g, evs) := s in
  match globals.native_config g with
  | None => Fault s
  | Some _ =>
      Done tt
        ({| globals.native_config :=
              Some {| disable_bitmoji := disableBitmoji;
                      disable_metrics := disableMetrics |};
            globals.java_vm := globals.java_vm g;
            globals.fstat_original := globals.fstat_original g;
            globals.native_lib_object := globals.native_lib_object g;
            globals.native_lib_on_unary_call_method :=
              globals.native_lib_on_unary_call_method g;
            globals.unaryCall_original := globals.unaryCall_original g |},
         evs)
  end.

Definition JNI_OnLoad (vm : Z) (s : process) : Z * process :=
  let (g, evs) := s in
  (JNI_VERSION_1_6,
   ({| globals.native_config := globals.native_config g;
       globals.java_vm := vm;
       globals.fstat_original := globals.fstat_original g;
       globals.native_lib_object := globals.native_lib_object g;
       globals.native_lib_on_unary_call_method :=
         globals.native_lib_on_unary_call_method g;
       globals.unaryCall_original := globals.unaryCall_original g |},
    evs ++ [EvRegisterNatives "me/rhunk/snapenhance/nativelib/NativeLib"
              [("init"%string, "(Ljava/lang/ClassLoader;)V"%string);
               ("loadConfig"%string,
                "(Lme/rhunk/snapenhance/nativelib/NativeConfig;)V"%string)]])).

(** The calls the Java side can make, and a sequence of them; a call
    whose run is undefined ends the sequence. *)
Inductive native_call : Type :=
| CallOnLoad (vm : Z)
| CallInit (clazz classloader : Z)
| CallLoadConfig (disableBitmoji disableMetrics : bool).

Fixpoint run_calls (calls : list native_call) (s : process) : outcome unit process :=
  match calls with
  | [] => Done tt s
  | CallOnLoad vm :: rest => run_calls rest (JNI_OnLoad vm s).2
  | CallInit clazz classloader :: rest => run_calls rest (init clazz classloader s)
  | CallLoadConfig b m :: rest =>
      match load_config b m s with
      | Done _ s' => run_calls rest s'
      | Fault s' => Fault s'
      end
  end.

End Library.

(** Whether, in a sequence of calls, [init] comes before the first
    [load_config]. *)
Fixpoint init_first (calls : list native_call) : bool :=
  match calls with
  | [] => true
  | CallOnLoad _ :: rest => init_first rest
  | CallInit _ _ :: _ => true
  | CallLoadConfig _ _ :: _ => false
  end.

(** The file-status interceptor as the process runs it: with the flags
    behind the global pointer, which it does not test either. *)
Definition fstat_hook_of (mem : Type) (g : globals.t)
    (fstat_original : Z -> Z -> os mem -> Z * os mem) (fd buf : Z) (o : os mem)
  : outcome Z (fs_world mem) :=
  match globals.native_config g with
  | None => Fault (o, [])
  | Some config => fstat_hook mem config fstat_original fd buf o
  end.

(** An environment in which libclient.so is mapped and the signature is
    found, and one in which the library is not mapped. *)
Definition demo_env : environment :=
  {| new_native_config_t := {| disable_bitmoji := false; disable_metrics := false |};
     NewGlobalRef := fun clazz => clazz + 1;
     GetMethodID := fun _ _ _ => 7;
     get_module := fun _ => {| base := 4096; size := 8192 |};
     DobbySymbolResolver := fun _ _ => 500;
     find_signature := fun b _ _ => b + 64;
     trampoline := fun target => target + 1 |}.

Definition bare_env : environment :=
  {| new_native_config_t := {| disable_bitmoji := false; disable_metrics := false |};
     NewGlobalRef := fun clazz => clazz + 1;
     GetMethodID := fun _ _ _ => 7;
     get_module := fun _ => {| base := 0; size := 0 |};
     DobbySymbolResolver := fun _ _ => 500;
     find_signature := fun b _ _ => b + 64;
     trampoline := fun target => target + 1 |}.

Definition all_off : native_config_t :=
  {| disable_bitmoji := false; disable_metrics := false |}.

(** A memory in which the block of the second request is not the
    allocator's. *)
Definition unowned_world : world :=
  {| w_store := with_heap demo_store (cells demo_store) (delete 5000 (blocks demo_store));
     ref_counter_struct_size := None;
     w_trace := [] |}.

(** * Proofs *)

(** ** Running the monad *)

Lemma run_bind {A B : Type} (m : M A) (k : A -> M B) (w : world) :
  (m ≫= k) w = match m w with
               | Done a w' => k a w'
               | Fault w' => Fault w'
               end.
Proof. reflexivity. Qed.

Lemma run_fmap {A B : Type} (f : A -> B) (m : M A) (w : world) :
  (f <$> m) w = match m w with
                | Done a w' => Done (f a) w'
                | Fault w' => Fault w'
                end.
Proof. reflexivity. Qed.

Lemma run_deref {V : Type} (table : store -> gmap Z V) (p : Z) (w : world) :
  deref table p w = match at_addr (table (w_store w)) p with
                    | Some v => Done v w
                    | None => Fault w
                    end.
Proof.
  unfold deref. rewrite run_bind. unfold get_store.
  destruct (at_addr (table (w_store w)) p); reflexivity.
Qed.

Lemma slice_of_Some (st : store) (a : call_args) (sp : Z) (sb : grpc.ref_counted_slice) :
  slice_of st a = Some (sp, sb) ->
  exists p bb,
    at_addr (ptrs st) (buffer_ptr a) = Some p
    /\ at_addr (byte_buffers st) p = Some bb
    /\ grpc.slice_buffer bb = sp
    /\ at_addr (slices st) sp = Some sb.
Proof.
  unfold slice_of. intros H.
  destruct (at_addr (ptrs st) (buffer_ptr a)) as [p|] eqn:Hp; [|discriminate].
  destruct (at_addr (byte_buffers st) p) as [bb|] eqn:Hbb; [|discriminate].
  destruct (at_addr (slices st) (grpc.slice_buffer bb)) as [s|] eqn:Hs; [|discriminate].
  inversion H; subst. exists p, bb. auto.
Qed.

Lemma at_addr_Some {V : Type} (t : gmap Z V) (p : Z) (v : V) :
  at_addr t p = Some v <-> p <> 0 /\ t !! p = Some v.
Proof.
  unfold at_addr. destruct (Z.eqb_spec p 0); split; intros H.
  - discriminate.
  - destruct H; contradiction.
  - auto.
  - tauto.
Qed.

(** ** Raw memory *)

Lemma wadd_small (a b : Z) : 0 <= a + b < WORD -> wadd a b = a + b.
Proof. intros H. unfold wadd. apply Z.mod_small. exact H. Qed.

Lemma wsub_range (a b : Z) : 0 <= wsub a b < WORD.
Proof. unfold wsub, WORD. apply Z.mod_pos_bound. lia. Qed.

Lemma length_load_cells (m : gmap Z memval) (n : nat) :
  forall a cs, load_cells m a n = Some cs -> List.length cs = n.
Proof.
  induction n as [|n IH]; intros a cs H; simpl in H.
  - inversion H. reflexivity.
  - destruct (m !! a) as [c|]; [|discriminate].
    destruct (load_cells m (a + 1) n) as [cs'|] eqn:E; [|discriminate].
    inversion H; subst. simpl. f_equal. eapply IH. exact E.
Qed.

Lemma lookup_load_cells (m : gmap Z memval) (n : nat) :
  forall a cs, load_cells m a n = Some cs ->
  forall i, (i < n)%nat -> m !! (a + Z.of_nat i) = cs !! i.
Proof.
  induction n as [|n IH]; intros a cs H i Hi; [lia|].
  simpl in H.
  destruct (m !! a) as [c|] eqn:Ea; [|discriminate].
  destruct (load_cells m (a + 1) n) as [cs'|] eqn:E; [|discriminate].
  inversion H; subst. destruct i as [|i].
  - rewrite Z.add_0_r. exact Ea.
  - replace (a + Z.of_nat (S i)) with (a + 1 + Z.of_nat i) by lia.
    simpl. apply (IH _ _ E). lia.
Qed.

Lemma load_cells_of_lookup (m : gmap Z memval) (cs : list memval) :
  forall a, (forall i, (i < List.length cs)%nat -> m !! (a + Z.of_nat i) = cs !! i) ->
  load_cells m a (List.length cs) = Some cs.
Proof.
  induction cs as [|c cs IH]; intros a H; [reflexivity|].
  simpl. pose proof (H 0%nat ltac:(simpl; lia)) as H0.
  rewrite Z.add_0_r in H0. simpl in H0. rewrite H0.
  rewrite IH; [reflexivity|].
  intros i Hi. replace (a + 1 + Z.of_nat i) with (a + Z.of_nat (S i)) by lia.
  apply (H (S i)). simpl. lia.
Qed.

(** Cells that agree on a region load alike. *)
Lemma load_cells_ext (m m' : gmap Z memval) (n : nat) :
  forall a, (forall i, (i < n)%nat -> m !! (a + Z.of_nat i) = m' !! (a + Z.of_nat i)) ->
  load_cells m a n = load_cells m' a n.
Proof.
  induction n as [|n IH]; intros a H; [reflexivity|].
  simpl. pose proof (H 0%nat ltac:(lia)) as H0. rewrite Z.add_0_r in H0.
  rewrite H0, (IH (a + 1)); [reflexivity|].
  intros i Hi. replace (a + 1 + Z.of_nat i) with (a + Z.of_nat (S i)) by lia.
  apply H. lia.
Qed.

Lemma lookup_alloc_cells (m : gmap Z memval) (n : nat) :
  forall a x,
  alloc_cells m a n !! x =
    if decide (a <= x < a + Z.of_nat n) then Some Undef else m !! x.
Proof.
  induction n as [|n IH]; intros a x; simpl.
  - destruct (decide _); [lia | reflexivity].
  - destruct (decide (a = x)) as [->|Hne].
    + rewrite lookup_insert_eq. destruct (decide _); [reflexivity | lia].
    + rewrite lookup_insert_ne by exact Hne. rewrite IH.
      destruct (decide _), (decide _); try reflexivity; lia.
Qed.

Lemma lookup_free_cells (m : gmap Z memval) (n : nat) :
  forall a x,
  free_cells m a n !! x =
    if decide (a <= x < a + Z.of_nat n) then None else m !! x.
Proof.
  induction n as [|n IH]; intros a x; simpl.
  - destruct (decide _); [lia | reflexivity].
  - destruct (decide (a = x)) as [->|Hne].
    + rewrite lookup_delete_eq. destruct (decide _); [reflexivity | lia].
    + rewrite lookup_delete_ne by exact Hne. rewrite IH.
      destruct (decide _), (decide _); try reflexivity; lia.
Qed.

(** Writing into allocated cells succeeds, and changes those cells only. *)
Lemma store_cells_spec (cs : list memval) :
  forall m a,
  (forall i, (i < List.length cs)%nat -> is_Some (m !! (a + Z.of_nat i))) ->
  exists m', store_cells m a cs = Some m'
    /\ forall x, m' !! x =
         if decide (a <= x < a + Z.of_nat (List.length cs))
         then cs !! Z.to_nat (x - a) else m !! x.
Proof.
  induction cs as [|c cs IH]; intros m a H.
  - exists m. split; [reflexivity|]. intros x. simpl.
    destruct (decide _); [lia | reflexivity].
  - simpl. destruct (H 0%nat ltac:(simpl; lia)) as [c0 Hc0].
    rewrite Z.add_0_r in Hc0. rewrite Hc0.
    destruct (IH (<[a := c]> m) (a + 1)) as (m' & Hm' & Hx).
    { intros i Hi. rewrite lookup_insert_ne by lia.
      replace (a + 1 + Z.of_nat i) with (a + Z.of_nat (S i)) by lia.
      apply H. simpl. lia. }
    exists m'. split; [exact Hm'|]. intros x. rewrite Hx.
    destruct (decide (a + 1 <= x < a + 1 + Z.of_nat (List.length cs))) as [Hin|Hout].
    + destruct (decide _) as [_|Hn]; [|lia].
      replace (Z.to_nat (x - a)) with (S (Z.to_nat (x - (a + 1)))) by lia.
      reflexivity.
    + destruct (decide (a = x)) as [->|Hne].
      * rewrite lookup_insert_eq. destruct (decide _) as [_|Hn]; [|lia].
        replace (x - x) with 0 by lia. reflexivity.
      * rewrite lookup_insert_ne by exact Hne.
        destruct (decide _); [lia | reflexivity].
Qed.

Lemma store_cells_unallocated (cs : list memval) (m : gmap Z memval) (a : Z) :
  cs <> [] -> m !! a = None -> store_cells m a cs = None.
Proof.
  intros Hcs Ha. destruct cs as [|c cs]; [contradiction|].
  simpl. rewrite Ha. reflexivity.
Qed.

Lemma values_Val (bs : list byte) : values (Val <$> bs) = Some bs.
Proof.
  induction bs as [|b bs IH]; [reflexivity|].
  rewrite fmap_cons. cbn [values]. rewrite IH. reflexivity.
Qed.

(** ** The operations of the unary-call interceptor *)

Section UnaryCallProofs.

Variable unaryCall_original : call_args -> store -> Z * store.
Variable onNativeUnaryCall : string -> list byte -> option NativeRequestData.
Variable malloc_result : store -> Z -> Z.

#[local] Abbreviation hook :=
  (unaryCall_hook unaryCall_original onNativeUnaryCall malloc_result).
#[local] Abbreviation forward := (call_original unaryCall_original).

(** Replaying one read through a pointer whose target is known. *)
Ltac read H :=
  first [ rewrite run_bind, run_fmap, run_deref; cbn [w_store log set_store with_heap slices]; rewrite H
        | rewrite run_bind, run_deref; cbn [w_store log set_store with_heap slices]; rewrite H ];
  cbv beta iota.

Lemma run_forward (a : call_args) (w : world) :
  forward a w = Done (unaryCall_original a (w_store w)).1
                   (forwarded unaryCall_original a w).
Proof.
  unfold call_original, forwarded. rewrite run_bind. unfold get_store at 1.
  rewrite run_bind. unfold emit at 1.
  destruct (unaryCall_original a (w_store w)) as [r st'].
  reflexivity.
Qed.

Lemma run_SetByteArrayRegion (st : store) (sb : grpc.ref_counted_slice)
      (payload : list byte) (w : world) :
  w_store w = st ->
  payload_of st sb = Some payload ->
  SetByteArrayRegion (grpc.length sb) (grpc.data sb) w =
    Done payload (log w [EvGetRegion (grpc.data sb) (to_jsize (grpc.length sb))]).
Proof.
  intros <- H. unfold payload_of in H. unfold SetByteArrayRegion.
  rewrite run_bind. unfold emit at 1. rewrite run_bind. unfold get_store at 1.
  cbn [w_store log].
  destruct (to_jsize (grpc.length sb) <? 0); [discriminate|].
  rewrite H. reflexivity.
Qed.

Lemma run_malloc (n : Z) (w : world) :
  malloc malloc_result n w =
    let st := w_store w in
    let p := malloc_result st n in
    Done p (if p =? 0 then log w [EvMalloc n p]
            else set_store (log w [EvMalloc n p])
                   (with_heap st (alloc_cells (cells st) p (Z.to_nat n))
                                 (<[p := n]> (blocks st)))).
Proof.
  unfold malloc. rewrite run_bind. unfold get_store at 1. cbv beta iota zeta.
  rewrite run_bind. unfold emit at 1. rewrite run_bind.
  destruct (malloc_result (w_store w) n =? 0); reflexivity.
Qed.

Lemma run_memcpy (dst src n : Z) (cs : list memval) (m : gmap Z memval) (w : world) :
  dst <> 0 -> src <> 0 ->
  load_cells (cells (w_store w)) src (Z.to_nat n) = Some cs ->
  store_cells (cells (w_store w)) dst cs = Some m ->
  memcpy dst src n w =
    Done tt (set_store (log w [EvMemcpy dst src n])
                       (with_heap (w_store w) m (blocks (w_store w)))).
Proof.
  intros Hd Hs Hl Hst. unfold memcpy.
  rewrite run_bind. unfold emit at 1. rewrite run_bind. unfold get_store at 1.
  cbn [w_store log].
  destruct (Z.eqb_spec dst 0); [contradiction|].
  destruct (Z.eqb_spec src 0); [contradiction|].
  cbn [orb]. rewrite Hl, Hst. reflexivity.
Qed.

Lemma run_memcpy_null (src n : Z) (w : world) :
  memcpy 0 src n w = Fault (log w [EvMemcpy 0 src n]).
Proof. reflexivity. Qed.

Lemma run_memcpy_array (dst : Z) (bs : list byte) (m : gmap Z memval) (w : world) :
  dst <> 0 ->
  store_cells (cells (w_store w)) dst (Val <$> bs) = Some m ->
  memcpy_array dst bs w =
    Done tt (set_store (log w [EvMemcpyArray dst bs])
                       (with_heap (w_store w) m (blocks (w_store w)))).
Proof.
  intros Hd Hst. unfold memcpy_array.
  rewrite run_bind. unfold emit at 1. rewrite run_bind. unfold get_store at 1.
  cbn [w_store log].
  destruct (Z.eqb_spec dst 0); [contradiction|].
  rewrite Hst. reflexivity.
Qed.

Lemma run_free (p size : Z) (w : world) :
  p <> 0 ->
  blocks (w_store w) !! p = Some size ->
  free p w =
    Done tt (set_store (log w [EvFree p])
               (with_heap (w_store w)
                  (free_cells (cells (w_store w)) p (Z.to_nat size))
                  (delete p (blocks (w_store w))))).
Proof.
  intros Hp Hb. unfold free.
  rewrite run_bind. unfold emit at 1. rewrite run_bind. unfold get_store at 1.
  cbn [w_store log].
  destruct (Z.eqb_spec p 0); [contradiction|].
  rewrite Hb. reflexivity.
Qed.

Lemma run_assign (p : Z) (upd : grpc.ref_counted_slice -> grpc.ref_counted_slice)
      (s : grpc.ref_counted_slice) (w : world) :
  at_addr (slices (w_store w)) p = Some s ->
  assign p upd w =
    Done tt (set_store w (with_slices (w_store w) (<[p := upd s]> (slices (w_store w))))).
Proof.
  intros H. unfold assign. rewrite run_bind, run_deref, H.
  reflexivity.
Qed.

Lemma run_static_local (init : M Z) (w : world) (v : Z) :
  init w = Done v w ->
  static_local init w =
    Done (default v (ref_counter_struct_size w))
         {| w_store := w_store w;
            ref_counter_struct_size := Some (default v (ref_counter_struct_size w));
            w_trace := w_trace w |}.
Proof.
  intros H. unfold static_local. destruct w as [st [c|] tr]; cbn in *.
  - reflexivity.
  - rewrite H. reflexivity.
Qed.

Lemma log_log (w : world) (es es' : list event) :
  log (log w es) es' = log w (es ++ es').
Proof. unfold log. cbn. rewrite <- app_assoc. reflexivity. Qed.

Lemma run_CallObjectMethod (u : string) (payload : list byte) (w : world) :
  CallObjectMethod onNativeUnaryCall u payload w =
    Done (onNativeUnaryCall u payload) (log w [EvCallback u payload]).
Proof. reflexivity. Qed.

(** Replaying the interceptor up to the answer of the decision-maker. *)
Ltac enter Hs Hrc Hpay :=
  let p := fresh "p" in
  let bb := fresh "bb" in
  let Hp := fresh "Hp" in
  let Hbb := fresh "Hbb" in
  let Hsb := fresh "Hsb" in
  pose proof Hs as Hsb;
  apply slice_of_Some in Hsb as (p & bb & Hp & Hbb & <- & Hsb);
  unfold unaryCall_hook;
  read Hp; read Hbb; read Hsb;
  match goal with
  | |- context [grpc.ref_counter ?s =? 0] =>
      destruct (Z.eqb_spec (grpc.ref_counter s) 0) as [?|_]; [contradiction|]
  end;
  read Hsb; read Hsb;
  rewrite run_bind, (run_SetByteArrayRegion _ _ _ _ eq_refl Hpay);
  rewrite run_bind, run_CallObjectMethod, log_log;
  cbn [app].

(** ** The unary-call interceptor: the paths without reallocation *)

(** C4. When the slice buffer's reference counter is zero, the hook goes
    straight to the original dispatch: the only call it makes is that one,
    on the memory it was entered with (no payload read, no callback, no
    [malloc], no [free]), and it returns the original's result. *)
Theorem unaryCall_hook_zero_ref_counter
    (a : call_args) (w : world) (sp : Z) (sb : grpc.ref_counted_slice) :
  slice_of (w_store w) a = Some (sp, sb) ->
  grpc.ref_counter sb = 0 ->
  hook a w = Done (unaryCall_original a (w_store w)).1
                  (set_store (log w [EvUnaryCall a (w_store w)])
                             (unaryCall_original a (w_store w)).2).
Proof.
  intros Hs Hrc. apply slice_of_Some in Hs as (p & bb & Hp & Hbb & <- & Hsb).
  unfold unaryCall_hook.
  read Hp. read Hbb. read Hsb.
  rewrite Hrc. cbn [Z.eqb]. apply run_forward.
Qed.

(** C5. When the decision-maker cancels, the hook returns null; it has
    read the payload and called the decision-maker and nothing else: the
    original dispatch is not called, nothing is allocated or freed, and
    memory and the cached header size are as they were. *)
Theorem unaryCall_hook_cancel
    (a : call_args) (w : world) (sp : Z) (sb : grpc.ref_counted_slice)
    (payload : list byte) (obj : NativeRequestData) :
  slice_of (w_store w) a = Some (sp, sb) ->
  grpc.ref_counter sb <> 0 ->
  payload_of (w_store w) sb = Some payload ->
  onNativeUnaryCall (uri a) payload = Some obj ->
  canceled obj = true ->
  hook a w = Done 0 (log w (asked a sb payload)).
Proof.
  intros Hs Hrc Hpay Hdec Hcan.
  enter Hs Hrc Hpay.
  rewrite Hdec, Hcan. reflexivity.
Qed.

(** C6. When the decision-maker has no opinion (null), the hook calls the
    original dispatch once, on exactly the memory it was entered with (so
    the slice buffer's three fields and the payload bytes are those of
    before), and returns what the original returns, leaving the memory the
    original leaves. *)
Theorem unaryCall_hook_no_opinion
    (a : call_args) (w : world) (sp : Z) (sb : grpc.ref_counted_slice)
    (payload : list byte) :
  slice_of (w_store w) a = Some (sp, sb) ->
  grpc.ref_counter sb <> 0 ->
  payload_of (w_store w) sb = Some payload ->
  onNativeUnaryCall (uri a) payload = None ->
  hook a w = Done (unaryCall_original a (w_store w)).1
                  (set_store (log w (asked a sb payload ++ [EvUnaryCall a (w_store w)]))
                             (unaryCall_original a (w_store w)).2).
Proof.
  intros Hs Hrc Hpay Hdec.
  enter Hs Hrc Hpay.
  rewrite Hdec, run_forward. unfold forwarded.
  cbn [w_store log]. rewrite log_log. reflexivity.
Qed.

Lemma fresh_block_spec (st : store) (p n : Z) :
  fresh_block st p n = true ->
  0 < p /\ p + n < WORD
  /\ (forall x, p <= x < p + n -> cells st !! x = None)
  /\ (forall b k, blocks st !! b = Some k -> apart p n b k = true).
Proof.
  unfold fresh_block. rewrite !andb_true_iff.
  intros [[[Hp Hn] Hc] Hb].
  apply Z.ltb_lt in Hp. apply Z.ltb_lt in Hn.
  rewrite forallb_forall in Hc. rewrite forallb_forall in Hb.
  repeat split; try assumption.
  - intros x Hx. specialize (Hc (Z.to_nat (x - p))).
    replace (p + Z.of_nat (Z.to_nat (x - p))) with x in Hc by lia.
    unfold unmapped in Hc. destruct (cells st !! x); [|reflexivity].
    assert (false = true); [|discriminate].
    apply Hc. apply in_seq. lia.
  - intros b k Hbk. apply (Hb (b, k)).
    apply list_elem_of_In. apply elem_of_map_to_list. exact Hbk.
Qed.

Ltac tidy :=
  unfold set_store, log, with_heap, with_slices;
  cbn [w_store cells blocks ptrs byte_buffers slices
       ref_counter_struct_size w_trace].

(** ** The unary-call interceptor: the reallocation *)

(** A complete rewrite.  [hs] is the header size the run works with: the
    cached one if there is one, else the one computed from this buffer.
    The memory [st'] is the one handed to the original dispatch. *)
Lemma hook_rewrite
    (a : call_args) (w : world) (sp : Z) (sb : grpc.ref_counted_slice)
    (payload : list byte) (obj : NativeRequestData)
    (hs sz : Z) (hdr : list memval) :
  let st := w_store w in
  let len := Z.of_nat (List.length (buffer obj)) in
  let p := malloc_result st (hs + len) in
  slice_of st a = Some (sp, sb) ->
  grpc.ref_counter sb <> 0 ->
  payload_of st sb = Some payload ->
  onNativeUnaryCall (uri a) payload = Some obj ->
  canceled obj = false ->
  hs = default (wsub (grpc.data sb) (grpc.ref_counter sb)) (ref_counter_struct_size w) ->
  0 <= hs ->
  load_cells (cells st) (grpc.ref_counter sb) (Z.to_nat hs) = Some hdr ->
  blocks st !! grpc.ref_counter sb = Some sz ->
  fresh_block st p (hs + len) = true ->
  exists st',
    hook a w =
      Done (unaryCall_original a st').1
           {| w_store := (unaryCall_original a st').2;
              ref_counter_struct_size := Some hs;
              w_trace := w_trace w ++ asked a sb payload
                ++ [EvMalloc (hs + len) p;
                    EvMemcpy p (grpc.ref_counter sb) hs;
                    EvMemcpyArray (p + hs) (buffer obj);
                    EvFree (grpc.ref_counter sb);
                    EvUnaryCall a st'] |}
    /\ slice_of st' a =
         Some (sp, {| grpc.ref_counter := p; grpc.length := len; grpc.data := p + hs |})
    /\ load_cells (cells st') p (Z.to_nat hs) = Some hdr
    /\ load_bytes (cells st') (p + hs) (List.length (buffer obj)) = Some (buffer obj)
    /\ blocks st' !! p = Some (hs + len)
    /\ blocks st' !! grpc.ref_counter sb = None
    /\ ptrs st' = ptrs st
    /\ byte_buffers st' = byte_buffers st
    /\ blocks st' = delete (grpc.ref_counter sb) (<[p := hs + len]> (blocks st))
    /\ slices st' =
         <[sp := {| grpc.ref_counter := p; grpc.length := len; grpc.data := p + hs |}]>
           (slices st)
    /\ (forall x,
          grpc.ref_counter sb <= x < grpc.ref_counter sb + Z.of_nat (Z.to_nat sz) ->
          cells st' !! x = None)
    /\ (forall x,
          ~ (grpc.ref_counter sb <= x < grpc.ref_counter sb + Z.of_nat (Z.to_nat sz)) ->
          ~ (p <= x < p + (hs + len)) ->
          cells st' !! x = cells st !! x).
Proof.
  intros st len p Hs Hrc Hpay Hdec Hcan Hhs Hpos Hhdr Hblk Hfresh. subst st.
  apply fresh_block_spec in Hfresh as (Hp0 & Hpn & Hfree & Hapart).
  assert (Hlen : 0 <= len) by (unfold len; lia).
  enter Hs Hrc Hpay.
  rewrite Hdec, Hcan.
  apply at_addr_Some in Hsb as Hsb'. destruct Hsb' as [Hsp0 Hsbl].
  (* the memory after each step *)
  set (n := hs + len) in *.
  set (rc := grpc.ref_counter sb) in *.
  set (m0 := cells (w_store w)) in *.
  set (m1 := alloc_cells m0 p (Z.to_nat n)).
  pose proof (length_load_cells _ _ _ _ Hhdr) as Hlh.
  assert (Hold : forall i, (i < Z.to_nat hs)%nat ->
                 m0 !! (rc + Z.of_nat i) = hdr !! i
                 /\ ~ (p <= rc + Z.of_nat i < p + n)).
  { intros i Hi. pose proof (lookup_load_cells _ _ _ _ Hhdr i Hi) as E.
    split; [exact E|]. intros Hin. rewrite (Hfree _ Hin) in E.
    symmetry in E. apply lookup_ge_None in E. lia. }
  assert (H1 : load_cells m1 rc (Z.to_nat hs) = Some hdr).
  { rewrite <- Hhdr. apply load_cells_ext. intros i Hi.
    unfold m1. rewrite lookup_alloc_cells.
    destruct (decide _) as [Hin|_]; [|reflexivity].
    destruct (Hold i Hi) as [_ Hout]. exfalso. apply Hout. lia. }
  destruct (store_cells_spec hdr m1 p) as (m2 & H2 & Hm2).
  { intros i Hi. unfold m1. rewrite lookup_alloc_cells.
    destruct (decide _) as [_|Hout]; [eauto | lia]. }
  destruct (store_cells_spec (Val <$> buffer obj) m2 (p + hs)) as (m3 & H3 & Hm3).
  { rewrite length_fmap. intros i Hi. rewrite Hm2.
    destruct (decide _) as [Hin|_]; [lia|].
    unfold m1. rewrite lookup_alloc_cells.
    destruct (decide _) as [_|Hout]; [eauto | lia]. }
  rewrite length_fmap in Hm3.
  pose proof (Hapart _ _ Hblk) as Hap. unfold apart in Hap.
  apply orb_true_iff in Hap. rewrite !Z.leb_le in Hap.
  set (m4 := free_cells m3 rc (Z.to_nat sz)).
  assert (H4h : load_cells m4 p (Z.to_nat hs) = Some hdr).
  { rewrite <- Hlh. apply load_cells_of_lookup. intros i Hi.
    unfold m4. rewrite lookup_free_cells.
    destruct (decide _) as [Hin|_]; [lia|].
    rewrite Hm3. destruct (decide _) as [Hin|_]; [lia|].
    rewrite Hm2. destruct (decide _) as [_|Hout]; [|lia].
    f_equal. lia. }
  assert (H4p : load_bytes m4 (p + hs) (List.length (buffer obj)) = Some (buffer obj)).
  { unfold load_bytes.
    rewrite <- (length_fmap Val (buffer obj)) at 1.
    rewrite load_cells_of_lookup; [apply values_Val|].
    rewrite length_fmap. intros i Hi.
    unfold m4. rewrite lookup_free_cells.
    destruct (decide _) as [Hin|_]; [lia|].
    rewrite Hm3. destruct (decide _) as [_|Hout]; [|lia].
    f_equal. lia. }
  (* the static local *)
  rewrite run_bind.
  rewrite (run_static_local _ _ (wsub (grpc.data sb) rc)).
  2:{ read Hsb. read Hsb. reflexivity. }
  cbn [w_store log ref_counter_struct_size w_trace]. rewrite <- Hhs.
  (* malloc *)
  rewrite run_bind, run_malloc. cbn [w_store]. cbv zeta.
  rewrite (wadd_small hs) by (fold len; lia). fold len. fold n. fold p.
  destruct (Z.eqb_spec p 0) as [?|_]; [lia|].
  read Hsb. fold rc.
  (* the two copies *)
  rewrite run_bind, (run_memcpy _ _ _ hdr m2); [|lia|exact Hrc|exact H1|exact H2].
  rewrite (wadd_small p hs) by lia. tidy.
  rewrite run_bind, (run_memcpy_array _ _ m3); [|lia|exact H3]. tidy.
  read Hsb. fold rc.
  (* free *)
  rewrite run_bind, (run_free _ sz); [|exact Hrc|].
  2:{ cbn. rewrite lookup_insert_ne by lia. exact Hblk. }
  tidy. fold m0. fold m4.
  (* the three assignments *)
  rewrite run_bind, (run_assign _ _ sb) by exact Hsb. tidy.
  rewrite run_bind, (run_assign _ _ (set_ref_counter p sb)).
  2:{ tidy. apply at_addr_Some. split; [exact Hsp0 | apply lookup_insert_eq]. }
  tidy. rewrite insert_insert_eq.
  rewrite run_bind, (run_assign _ _ (set_length len (set_ref_counter p sb))).
  2:{ tidy. apply at_addr_Some. split; [exact Hsp0 | apply lookup_insert_eq]. }
  tidy. rewrite insert_insert_eq.
  rewrite run_forward. unfold forwarded. tidy.
  rewrite <- !app_assoc. cbn [app].
  eexists. split; [reflexivity|].
  cbn [cells blocks ptrs byte_buffers slices].
  repeat split; try assumption; try reflexivity.
  - unfold slice_of. cbn [ptrs byte_buffers slices]. rewrite Hp, Hbb.
    unfold at_addr at 1. destruct (Z.eqb_spec (grpc.slice_buffer bb) 0); [contradiction|].
    rewrite lookup_insert_eq. reflexivity.
  - rewrite lookup_delete_ne by lia. apply lookup_insert_eq.
  - apply lookup_delete_eq.
  - intros x Hx. unfold m4. rewrite lookup_free_cells.
    destruct (decide _) as [_|Hout]; [reflexivity | lia].
  - intros x Hx Hxp. unfold m4. rewrite lookup_free_cells.
    destruct (decide _) as [Hin|_]; [lia|].
    rewrite Hm3. destruct (decide _) as [Hin|_]; [lia|].
    rewrite Hm2. destruct (decide _) as [Hin|_]; [lia|].
    unfold m1. rewrite lookup_alloc_cells.
    destruct (decide _) as [Hin|_]; [lia | reflexivity].
Qed.

(** C1, as the code has it.  When the decision-maker returns a rewrite
    with payload [P], the allocation succeeds, and the cached header size
    (if one is cached) is this buffer's [data - ref_counter]: the slice
    buffer handed to the original dispatch has length [|P|], the bytes at
    its data pointer are [P], the header bytes of its new block are the
    original header bytes, its data pointer is the new block plus the
    header size, the new block has size header plus [|P|], and the old
    block has been freed once, before the original dispatch is called. *)
Theorem unaryCall_hook_rewrite
    (a : call_args) (w : world) (sp : Z) (sb : grpc.ref_counted_slice)
    (payload : list byte) (obj : NativeRequestData)
    (sz : Z) (hdr : list memval) :
  let st := w_store w in
  let hs := wsub (grpc.data sb) (grpc.ref_counter sb) in
  let len := Z.of_nat (List.length (buffer obj)) in
  let p := malloc_result st (hs + len) in
  slice_of st a = Some (sp, sb) ->
  grpc.ref_counter sb <> 0 ->
  payload_of st sb = Some payload ->
  onNativeUnaryCall (uri a) payload = Some obj ->
  canceled obj = false ->
  cache_agrees w hs = true ->
  load_cells (cells st) (grpc.ref_counter sb) (Z.to_nat hs) = Some hdr ->
  blocks st !! grpc.ref_counter sb = Some sz ->
  fresh_block st p (hs + len) = true ->
  exists st',
    hook a w =
      Done (unaryCall_original a st').1
           {| w_store := (unaryCall_original a st').2;
              ref_counter_struct_size := Some hs;
              w_trace := w_trace w ++ asked a sb payload
                ++ [EvMalloc (hs + len) p;
                    EvMemcpy p (grpc.ref_counter sb) hs;
                    EvMemcpyArray (p + hs) (buffer obj);
                    EvFree (grpc.ref_counter sb);
                    EvUnaryCall a st'] |}
    /\ slice_of st' a =
         Some (sp, {| grpc.ref_counter := p; grpc.length := len; grpc.data := p + hs |})
    /\ load_bytes (cells st') (p + hs) (List.length (buffer obj)) = Some (buffer obj)
    /\ load_cells (cells st') p (Z.to_nat hs) = Some hdr
    /\ blocks st' !! p = Some (hs + len)
    /\ blocks st' !! grpc.ref_counter sb = None.
Proof.
  intros st hs len p Hs Hrc Hpay Hdec Hcan Hcache Hhdr Hblk Hfresh.
  destruct (hook_rewrite a w sp sb payload obj hs sz hdr)
    as (st' & Hrun & Hslice & Hh & Hp & Hnew & Hold & _); try assumption.
  - unfold cache_agrees in Hcache.
    destruct (ref_counter_struct_size w) as [v|]; [|reflexivity].
    apply Z.eqb_eq in Hcache. symmetry. exact Hcache.
  - apply wsub_range.
  - exists st'. repeat split; assumption.
Qed.

(** C2, as the code has it.  When the allocation fails, the hook passes
    the null block to [memcpy] and stops there: the original dispatch is
    not called.  Up to that point nothing has been freed and memory is
    what it was on entry, the slice buffer's three fields included; only
    the header size has been cached. *)
Theorem unaryCall_hook_malloc_fails
    (a : call_args) (w : world) (sp : Z) (sb : grpc.ref_counted_slice)
    (payload : list byte) (obj : NativeRequestData) :
  let st := w_store w in
  let hs := default (wsub (grpc.data sb) (grpc.ref_counter sb))
                    (ref_counter_struct_size w) in
  let size := wadd hs (Z.of_nat (List.length (buffer obj))) in
  slice_of st a = Some (sp, sb) ->
  grpc.ref_counter sb <> 0 ->
  payload_of st sb = Some payload ->
  onNativeUnaryCall (uri a) payload = Some obj ->
  canceled obj = false ->
  malloc_result st size = 0 ->
  hook a w =
    Fault {| w_store := st;
             ref_counter_struct_size := Some hs;
             w_trace := w_trace w ++ asked a sb payload
               ++ [EvMalloc size 0; EvMemcpy 0 (grpc.ref_counter sb) hs] |}.
Proof.
  intros st hs size Hs Hrc Hpay Hdec Hcan Hnull. subst st.
  enter Hs Hrc Hpay.
  rewrite Hdec, Hcan.
  rewrite run_bind.
  rewrite (run_static_local _ _ (wsub (grpc.data sb) (grpc.ref_counter sb))).
  2:{ read Hsb. read Hsb. reflexivity. }
  cbn [w_store log ref_counter_struct_size w_trace]. fold hs.
  rewrite run_bind, run_malloc. cbn [w_store]. cbv zeta.
  fold size. rewrite Hnull. cbn [Z.eqb].
  read Hsb.
  rewrite run_bind, run_memcpy_null. tidy.
  rewrite <- !app_assoc. reflexivity.
Qed.

(** C3, as the code has it.  The header size a rewrite works with is the
    value of the static local: the one cached by an earlier rewrite if
    there is one, and only otherwise this buffer's [data - ref_counter],
    which is then cached.  That one value sizes the new block, is the
    count of the header copy, and places the payload and the new data
    pointer. *)
Theorem header_size_is_cached
    (a : call_args) (w : world) (sp : Z) (sb : grpc.ref_counted_slice)
    (payload : list byte) (obj : NativeRequestData)
    (sz : Z) (hdr : list memval) :
  let st := w_store w in
  let hs := match ref_counter_struct_size w with
            | Some cached => cached
            | None => wsub (grpc.data sb) (grpc.ref_counter sb)
            end in
  let len := Z.of_nat (List.length (buffer obj)) in
  let p := malloc_result st (hs + len) in
  slice_of st a = Some (sp, sb) ->
  grpc.ref_counter sb <> 0 ->
  payload_of st sb = Some payload ->
  onNativeUnaryCall (uri a) payload = Some obj ->
  canceled obj = false ->
  0 <= hs ->
  load_cells (cells st) (grpc.ref_counter sb) (Z.to_nat hs) = Some hdr ->
  blocks st !! grpc.ref_counter sb = Some sz ->
  fresh_block st p (hs + len) = true ->
  exists st',
    hook a w =
      Done (unaryCall_original a st').1
           {| w_store := (unaryCall_original a st').2;
              ref_counter_struct_size := Some hs;
              w_trace := w_trace w ++ asked a sb payload
                ++ [EvMalloc (hs + len) p;
                    EvMemcpy p (grpc.ref_counter sb) hs;
                    EvMemcpyArray (p + hs) (buffer obj);
                    EvFree (grpc.ref_counter sb);
                    EvUnaryCall a st'] |}
    /\ (grpc.data <$> (snd <$> slice_of st' a)) = Some (p + hs)
    /\ blocks st' !! p = Some (hs + len).
Proof.
  intros st hs len p Hs Hrc Hpay Hdec Hcan Hpos Hhdr Hblk Hfresh.
  destruct (hook_rewrite a w sp sb payload obj hs sz hdr)
    as (st' & Hrun & Hslice & Hh & Hp & Hnew & Hold & _); try assumption.
  - unfold hs. destruct (ref_counter_struct_size w); reflexivity.
  - exists st'. rewrite Hslice. repeat split; assumption.
Qed.

(** C10.  The hook follows three pointers before it tests the reference
    counter and guards none of them: with a null [buffer_ptr], a null
    byte buffer behind it, or a null [slice_buffer] field, the run is
    undefined at once, before any call is made; and a run that returns
    has found all three non-null. *)
Theorem unaryCall_hook_null_pointer (a : call_args) (w : world) :
  (buffer_ptr a = 0
   \/ ptrs (w_store w) !! buffer_ptr a = Some 0
   \/ (exists p, ptrs (w_store w) !! buffer_ptr a = Some p
               /\ byte_buffers (w_store w) !! p = Some {| grpc.slice_buffer := 0 |})
   -> hook a w = Fault w)
  /\ (forall r w', hook a w = Done r w' ->
      exists p bb sb,
        buffer_ptr a <> 0 /\ ptrs (w_store w) !! buffer_ptr a = Some p
        /\ p <> 0 /\ byte_buffers (w_store w) !! p = Some bb
        /\ grpc.slice_buffer bb <> 0
        /\ slices (w_store w) !! grpc.slice_buffer bb = Some sb).
Proof.
  split.
  - intros H. unfold unaryCall_hook. rewrite run_bind, run_deref.
    unfold at_addr at 1.
    destruct (Z.eqb_spec (buffer_ptr a) 0) as [|Hn]; [reflexivity|].
    destruct H as [H|[H|(p & H & Hbb)]]; [contradiction| |]; rewrite H.
    + rewrite run_bind, run_deref. reflexivity.
    + rewrite run_bind, run_deref. unfold at_addr at 1.
      destruct (p =? 0); [reflexivity|]. rewrite Hbb.
      rewrite run_bind, run_fmap, run_deref. reflexivity.
  - intros r w' H. unfold unaryCall_hook in H.
    rewrite run_bind, run_deref in H.
    destruct (at_addr (ptrs (w_store w)) (buffer_ptr a)) as [p|] eqn:Hp;
      [|discriminate].
    rewrite run_bind, run_deref in H.
    destruct (at_addr (byte_buffers (w_store w)) p) as [bb|] eqn:Hbb;
      [|discriminate].
    rewrite run_bind, run_fmap, run_deref in H.
    destruct (at_addr (slices (w_store w)) (grpc.slice_buffer bb)) as [sb|] eqn:Hsb;
      [|discriminate].
    apply at_addr_Some in Hp as [? ?]. apply at_addr_Some in Hbb as [? ?].
    apply at_addr_Some in Hsb as [? ?].
    exists p, bb, sb. auto 10.
Qed.

(** ** The unary-call interceptor: further properties *)

Lemma run_SetByteArrayRegion_any (len src : Z) (w : world) :
  SetByteArrayRegion len src w =
    if to_jsize len <? 0 then Fault (log w [EvGetRegion src (to_jsize len)])
    else match load_bytes (cells (w_store w)) src (Z.to_nat (to_jsize len)) with
         | Some bs => Done bs (log w [EvGetRegion src (to_jsize len)])
         | None => Fault (log w [EvGetRegion src (to_jsize len)])
         end.
Proof.
  unfold SetByteArrayRegion. rewrite run_bind. unfold emit at 1.
  rewrite run_bind. unfold get_store at 1. cbn [w_store log].
  destruct (to_jsize len <? 0); [reflexivity|].
  destruct (load_bytes _ _ _); reflexivity.
Qed.


Lemma slice_of_frame (st st' : store) (a : call_args) (sp : Z)
      (sb : grpc.ref_counted_slice) :
  ptrs st' = ptrs st ->
  byte_buffers st' = byte_buffers st ->
  slices st' !! sp = slices st !! sp ->
  slice_of st a = Some (sp, sb) ->
  slice_of st' a = Some (sp, sb).
Proof.
  intros Ep Eb Es H. pose proof H as H'.
  apply slice_of_Some in H' as (p & bb & Hp & Hbb & <- & Hsb).
  unfold slice_of. rewrite Ep, Eb, Hp, Hbb.
  apply at_addr_Some in Hsb as [Hn Hsb].
  unfold at_addr. destruct (Z.eqb_spec (grpc.slice_buffer bb) 0); [contradiction|].
  rewrite Es, Hsb. reflexivity.
Qed.

(** X6.  A rewrite touches nothing but its own slice buffer and its two
    blocks: the pointer cells and byte buffers, every other slice buffer,
    every other entry of the block table, and every byte outside the old
    and the new block are in the memory handed to the original dispatch
    what they were on entry; the bytes of the old block are gone. *)
Theorem unaryCall_hook_rewrite_frame
    (a : call_args) (w : world) (sp : Z) (sb : grpc.ref_counted_slice)
    (payload : list byte) (obj : NativeRequestData)
    (hs sz : Z) (hdr : list memval) :
  let st := w_store w in
  let rc := grpc.ref_counter sb in
  let len := Z.of_nat (List.length (buffer obj)) in
  let p := malloc_result st (hs + len) in
  slice_of st a = Some (sp, sb) ->
  rc <> 0 ->
  payload_of st sb = Some payload ->
  onNativeUnaryCall (uri a) payload = Some obj ->
  canceled obj = false ->
  hs = default (wsub (grpc.data sb) rc) (ref_counter_struct_size w) ->
  0 <= hs ->
  load_cells (cells st) rc (Z.to_nat hs) = Some hdr ->
  blocks st !! rc = Some sz ->
  fresh_block st p (hs + len) = true ->
  exists st',
    w_trace (final (hook a w)) =
      w_trace w ++ asked a sb payload
        ++ [EvMalloc (hs + len) p; EvMemcpy p rc hs;
            EvMemcpyArray (p + hs) (buffer obj); EvFree rc; EvUnaryCall a st']
    /\ ptrs st' = ptrs st
    /\ byte_buffers st' = byte_buffers st
    /\ (forall q, q <> sp -> slices st' !! q = slices st !! q)
    /\ (forall b, b <> rc -> b <> p -> blocks st' !! b = blocks st !! b)
    /\ (forall x, ~ (rc <= x < rc + Z.of_nat (Z.to_nat sz)) ->
                  ~ (p <= x < p + (hs + len)) ->
                  cells st' !! x = cells st !! x)
    /\ (forall x, rc <= x < rc + Z.of_nat (Z.to_nat sz) -> cells st' !! x = None).
Proof.
  intros st rc len p Hs Hrc Hpay Hdec Hcan Hhs Hpos Hhdr Hblk Hfresh.
  destruct (hook_rewrite a w sp sb payload obj hs sz hdr)
    as (st' & Hrun & _ & _ & _ & _ & _ & Ep & Eb & Ebl & Esl & Hgone & Hkept);
    try assumption.
  exists st'. rewrite Hrun. cbn [final w_trace].
  repeat split; try assumption.
  - intros q Hq. rewrite Esl. apply lookup_insert_ne. auto.
  - intros b Hb1 Hb2. rewrite Ebl.
    rewrite lookup_delete_ne by auto. apply lookup_insert_ne. auto.
Qed.

(** X7.  A rewrite keeps the slice invariant, with the same header size
    and the same header cells, and with the new payload as the payload:
    the rewritten request can be intercepted and rewritten again, the
    decision-maker is then handed exactly the bytes written, and the
    cached header size still agrees. *)
Theorem unaryCall_hook_rewrite_invariant
    (a : call_args) (w : world) (hs : Z) (hdr : list memval)
    (payload : list byte) (obj : NativeRequestData) :
  let st := w_store w in
  let len := Z.of_nat (List.length (buffer obj)) in
  let p := malloc_result st (hs + len) in
  slice_invariant st a hs hdr payload ->
  cache_agrees w hs = true ->
  onNativeUnaryCall (uri a) payload = Some obj ->
  canceled obj = false ->
  len < 2 ^ 31 ->
  fresh_block st p (hs + len) = true ->
  exists st' w',
    hook a w = Done (unaryCall_original a st').1 w'
    /\ In (EvUnaryCall a st') (w_trace w')
    /\ w_store w' = (unaryCall_original a st').2
    /\ ref_counter_struct_size w' = Some hs
    /\ cache_agrees w' hs = true
    /\ slice_invariant st' a hs hdr (buffer obj).
Proof.
  intros st len p (sp & sb & sz & Hs & Hrc & Hhs & Hpay & Hhdr & Hblk)
         Hcache Hdec Hcan Hlen Hfresh.
  pose proof (fresh_block_spec _ _ _ Hfresh) as (Hp0 & Hpn & _ & _).
  assert (Hr : 0 <= hs < WORD) by (rewrite <- Hhs; apply wsub_range).
  destruct (hook_rewrite a w sp sb payload obj hs sz hdr)
    as (st' & Hrun & Hslice & Hh & Hp & Hnew & _); try assumption; try lia.
  { revert Hcache. unfold cache_agrees.
    destruct (ref_counter_struct_size w) as [v|]; cbn [default]; intros Hcache.
    - apply Z.eqb_eq in Hcache. symmetry. exact Hcache.
    - symmetry. exact Hhs. }
  eexists st', _. split; [exact Hrun|]. cbn [w_trace w_store ref_counter_struct_size].
  split; [|split; [reflexivity|split; [reflexivity|split]]].
  - rewrite !in_app_iff. right. right. simpl. tauto.
  - unfold cache_agrees. cbn [ref_counter_struct_size]. apply Z.eqb_refl.
  - exists sp, {| grpc.ref_counter := p; grpc.length := len; grpc.data := p + hs |},
           (hs + len).
    cbn [grpc.ref_counter grpc.length grpc.data].
    repeat split; try assumption.
    + lia.
    + unfold wsub. replace (p + hs - p) with hs by lia. apply Z.mod_small. exact Hr.
    + unfold payload_of. cbn [grpc.length grpc.data].
      assert (Ej : to_jsize len = len).
      { unfold to_jsize. rewrite Z.mod_small by (unfold len in *; lia).
        destruct (Z.ltb_spec len (2 ^ 31)); [reflexivity | lia]. }
      rewrite Ej. destruct (Z.ltb_spec len 0); [unfold len in *; lia|].
      unfold len. rewrite Nat2Z.id. exact Hp.
Qed.

(** X8.  The old block is freed whether or not another slice buffer
    still uses it: a second request whose slice buffer has its data in
    that block keeps its fields and is left dangling, its payload can no
    longer be read. *)
Theorem unaryCall_hook_rewrite_dangling
    (a a2 : call_args) (w : world) (sp sp2 : Z) (sb sb2 : grpc.ref_counted_slice)
    (payload : list byte) (obj : NativeRequestData)
    (hs sz : Z) (hdr : list memval) :
  let st := w_store w in
  let rc := grpc.ref_counter sb in
  let len := Z.of_nat (List.length (buffer obj)) in
  let p := malloc_result st (hs + len) in
  slice_of st a = Some (sp, sb) ->
  rc <> 0 ->
  payload_of st sb = Some payload ->
  onNativeUnaryCall (uri a) payload = Some obj ->
  canceled obj = false ->
  hs = default (wsub (grpc.data sb) rc) (ref_counter_struct_size w) ->
  0 <= hs ->
  load_cells (cells st) rc (Z.to_nat hs) = Some hdr ->
  blocks st !! rc = Some sz ->
  fresh_block st p (hs + len) = true ->
  slice_of st a2 = Some (sp2, sb2) ->
  sp2 <> sp ->
  rc <= grpc.data sb2 < rc + sz ->
  0 < to_jsize (grpc.length sb2) ->
  exists st',
    In (EvUnaryCall a st') (w_trace (final (hook a w)))
    /\ slice_of st' a2 = Some (sp2, sb2)
    /\ payload_of st' sb2 = None.
Proof.
  intros st rc len p Hs Hrc Hpay Hdec Hcan Hhs Hpos Hhdr Hblk Hfresh
         Hs2 Hne Hin Hlen2.
  destruct (hook_rewrite a w sp sb payload obj hs sz hdr)
    as (st' & Hrun & _ & _ & _ & _ & _ & Ep & Eb & _ & Esl & Hgone & _);
    try assumption.
  exists st'. split; [|split].
  - rewrite Hrun. cbn [final w_trace]. rewrite !in_app_iff. right. right.
    simpl. tauto.
  - apply (slice_of_frame st st' a2 sp2 sb2 Ep Eb); [|exact Hs2].
    rewrite Esl. apply lookup_insert_ne. auto.
  - unfold payload_of. destruct (Z.ltb_spec (to_jsize (grpc.length sb2)) 0); [reflexivity|].
    unfold load_bytes.
    destruct (Z.to_nat (to_jsize (grpc.length sb2))) as [|k] eqn:E; [lia|].
    cbn [load_cells]. rewrite (Hgone (grpc.data sb2)) by (fold rc; lia).
    reflexivity.
Qed.

Lemma run_memcpy_any (dst src n : Z) (w : world) :
  memcpy dst src n w =
    if (dst =? 0) || (src =? 0) then Fault (log w [EvMemcpy dst src n])
    else match load_cells (cells (w_store w)) src (Z.to_nat n) with
         | None => Fault (log w [EvMemcpy dst src n])
         | Some cs =>
             match store_cells (cells (w_store w)) dst cs with
             | None => Fault (log w [EvMemcpy dst src n])
             | Some m =>
                 Done tt (set_store (log w [EvMemcpy dst src n])
                            (with_heap (w_store w) m (blocks (w_store w))))
             end
         end.
Proof.
  unfold memcpy. rewrite run_bind. unfold emit at 1.
  rewrite run_bind. unfold get_store at 1. cbn [w_store log].
  destruct ((dst =? 0) || (src =? 0)); [reflexivity|].
  destruct (load_cells _ _ _); [|reflexivity].
  destruct (store_cells _ _ _); reflexivity.
Qed.

Lemma run_memcpy_array_any (dst : Z) (bs : list byte) (w : world) :
  memcpy_array dst bs w =
    if dst =? 0 then Fault (log w [EvMemcpyArray dst bs])
    else match store_cells (cells (w_store w)) dst (Val <$> bs) with
         | None => Fault (log w [EvMemcpyArray dst bs])
         | Some m =>
             Done tt (set_store (log w [EvMemcpyArray dst bs])
                        (with_heap (w_store w) m (blocks (w_store w))))
         end.
Proof.
  unfold memcpy_array. rewrite run_bind. unfold emit at 1.
  rewrite run_bind. unfold get_store at 1. cbn [w_store log].
  destruct (dst =? 0); [reflexivity|].
  destruct (store_cells _ _ _); reflexivity.
Qed.

Lemma run_free_any (p : Z) (w : world) :
  free p w =
    if p =? 0 then Done tt (log w [EvFree p])
    else match blocks (w_store w) !! p with
         | Some size =>
             Done tt (set_store (log w [EvFree p])
                        (with_heap (w_store w)
                           (free_cells (cells (w_store w)) p (Z.to_nat size))
                           (delete p (blocks (w_store w)))))
         | None => Fault (log w [EvFree p])
         end.
Proof.
  unfold free. rewrite run_bind. unfold emit at 1.
  rewrite run_bind. unfold get_store at 1. cbn [w_store log].
  destruct (p =? 0); [reflexivity|].
  destruct (blocks (w_store w) !! p); reflexivity.
Qed.

(** Closing a leaf of the case analysis below: a run that has stopped, or
    has returned after a cancel. *)
Ltac stopped :=
  tidy; rewrite <- ?app_assoc;
  split;
  [ intros v Hv; cbn [final ref_counter_struct_size];
    try rewrite Hv; try reflexivity; exact Hv
  | try left; eexists; split; [cbn [w_trace app]; reflexivity|];
    repeat split; reflexivity ].

(** Every run of the interceptor, by cases. *)
Lemma hook_run (a : call_args) (w : world) :
  (forall v, ref_counter_struct_size w = Some v ->
             ref_counter_struct_size (final (hook a w)) = Some v)
  /\ match hook a w with
     | Done r w' =>
         (exists es,
            w_trace w' = w_trace w ++ es
            /\ existsb is_unary_call es = false
            /\ r = 0
            /\ w_store w' = w_store w
            /\ ref_counter_struct_size w' = ref_counter_struct_size w)
         \/ (exists es st',
              w_trace w' = w_trace w ++ es ++ [EvUnaryCall a st']
              /\ existsb is_unary_call es = false
              /\ r = (unaryCall_original a st').1
              /\ w_store w' = (unaryCall_original a st').2
              /\ ptrs st' = ptrs (w_store w)
              /\ byte_buffers st' = byte_buffers (w_store w))
     | Fault w' =>
         exists es, w_trace w' = w_trace w ++ es /\ existsb is_unary_call es = false
     end.
Proof.
  unfold unaryCall_hook.
  rewrite run_bind, run_deref.
  destruct (at_addr (ptrs (w_store w)) (buffer_ptr a)) as [p|] eqn:Hp.
  2:{ split; [auto|]. exists []. rewrite app_nil_r. auto. }
  rewrite run_bind, run_deref.
  destruct (at_addr (byte_buffers (w_store w)) p) as [bb|] eqn:Hbb.
  2:{ split; [auto|]. exists []. rewrite app_nil_r. auto. }
  rewrite run_bind, run_fmap, run_deref.
  destruct (at_addr (slices (w_store w)) (grpc.slice_buffer bb)) as [sb|] eqn:Hsb.
  2:{ split; [auto|]. exists []. rewrite app_nil_r. auto. }
  cbv beta iota.
  destruct (grpc.ref_counter sb =? 0) eqn:Erc.
  { rewrite run_forward. unfold forwarded. tidy. split; [auto|].
    right. exists [], (w_store w). cbn [app]. repeat split; reflexivity. }
  read Hsb. read Hsb.
  rewrite run_bind, run_SetByteArrayRegion_any.
  destruct (to_jsize (grpc.length sb) <? 0); [stopped|].
  destruct (load_bytes _ _ _) as [payload|]; [|stopped].
  rewrite run_bind, run_CallObjectMethod, log_log. cbn [app].
  destruct (onNativeUnaryCall (uri a) payload) as [obj|].
  2:{ rewrite run_forward. unfold forwarded. tidy. split; [auto|].
      right. eexists _, (w_store w). rewrite <- app_assoc.
      repeat split; reflexivity. }
  destruct (canceled obj); [stopped|].
  apply at_addr_Some in Hsb as Hsb'. destruct Hsb' as [Hsp0 _].
  rewrite run_bind.
  rewrite (run_static_local _ _ (wsub (grpc.data sb) (grpc.ref_counter sb))).
  2:{ read Hsb. read Hsb. reflexivity. }
  tidy.
  set (hs := default (wsub (grpc.data sb) (grpc.ref_counter sb))
                     (ref_counter_struct_size w)).
  assert (Hkeep : forall v, ref_counter_struct_size w = Some v -> Some hs = Some v).
  { intros v Hv. unfold hs. rewrite Hv. reflexivity. }
  rewrite run_bind, run_malloc. cbv zeta. tidy.
  set (n := wadd hs (Z.of_nat (List.length (buffer obj)))).
  set (q := malloc_result (w_store w) n).
  destruct (q =? 0) eqn:Eq.
  { read Hsb. rewrite run_bind, run_memcpy_any, Eq. cbn [orb].
    tidy. rewrite <- ?app_assoc. split; [exact Hkeep|].
    eexists. split; [cbn [app]; reflexivity | reflexivity]. }
  tidy. read Hsb.
  rewrite run_bind, run_memcpy_any, Eq, Erc. cbn [orb]. tidy.
  destruct (load_cells _ _ _) as [cs|].
  2:{ rewrite <- ?app_assoc. split; [exact Hkeep|].
      eexists. split; [cbn [app]; reflexivity | reflexivity]. }
  destruct (store_cells _ _ _) as [m2|].
  2:{ rewrite <- ?app_assoc. split; [exact Hkeep|].
      eexists. split; [cbn [app]; reflexivity | reflexivity]. }
  tidy.
  rewrite run_bind, run_memcpy_array_any. tidy.
  destruct (wadd q hs =? 0).
  { rewrite <- ?app_assoc. split; [exact Hkeep|].
    eexists. split; [cbn [app]; reflexivity | reflexivity]. }
  destruct (store_cells _ _ _) as [m3|].
  2:{ rewrite <- ?app_assoc. split; [exact Hkeep|].
      eexists. split; [cbn [app]; reflexivity | reflexivity]. }
  tidy. read Hsb.
  rewrite run_bind, run_free_any, Erc. tidy.
  destruct (<[q:=n]> (blocks (w_store w)) !! grpc.ref_counter sb) as [size|].
  2:{ rewrite <- ?app_assoc. split; [exact Hkeep|].
      eexists. split; [cbn [app]; reflexivity | reflexivity]. }
  rewrite run_bind, (run_assign _ _ sb) by exact Hsb. tidy.
  rewrite run_bind, (run_assign _ _ (set_ref_counter q sb)).
  2:{ tidy. apply at_addr_Some. split; [exact Hsp0 | apply lookup_insert_eq]. }
  tidy. rewrite insert_insert_eq.
  rewrite run_bind, (run_assign _ _ (set_length (Z.of_nat (List.length (buffer obj)))
                                               (set_ref_counter q sb))).
  2:{ tidy. apply at_addr_Some. split; [exact Hsp0 | apply lookup_insert_eq]. }
  tidy. rewrite insert_insert_eq.
  rewrite run_forward. unfold forwarded. tidy.
  rewrite <- !app_assoc. cbn [app final ref_counter_struct_size].
  split; [exact Hkeep|].
  right. eexists [_; _; _; _; _; _], _. cbn [app].
  repeat split; reflexivity.
Qed.

(** X9.  A run that returns has either cancelled (it returns null, has
    not called the original dispatch, and leaves memory and the cached
    header size as they were), or has called the original dispatch
    exactly once, as the last thing it did, with the arguments it was
    given and with the pointer cells and byte buffers as they were on
    entry, and returns the original's result and memory. *)
Theorem unaryCall_hook_returns (a : call_args) (w : world) (r : Z) (w' : world) :
  hook a w = Done r w' ->
  (exists es,
     w_trace w' = w_trace w ++ es
     /\ existsb is_unary_call es = false
     /\ r = 0
     /\ w_store w' = w_store w
     /\ ref_counter_struct_size w' = ref_counter_struct_size w)
  \/ (exists es st',
       w_trace w' = w_trace w ++ es ++ [EvUnaryCall a st']
       /\ existsb is_unary_call es = false
       /\ r = (unaryCall_original a st').1
       /\ w_store w' = (unaryCall_original a st').2
       /\ ptrs st' = ptrs (w_store w)
       /\ byte_buffers st' = byte_buffers (w_store w)).
Proof.
  intros H. pose proof (proj2 (hook_run a w)) as C. rewrite H in C. exact C.
Qed.

(** X10.  A run that is undefined has not called the original dispatch:
    the dispatch comes last on every path. *)
Theorem unaryCall_hook_stops_before_dispatch (a : call_args) (w w' : world) :
  hook a w = Fault w' ->
  exists es, w_trace w' = w_trace w ++ es /\ existsb is_unary_call es = false.
Proof.
  intros H. pose proof (proj2 (hook_run a w)) as C. rewrite H in C. exact C.
Qed.

(** X11.  Once the header size is cached it stays what it is through any
    sequence of interceptions, whatever they decide and whether they
    return or not. *)
Theorem header_size_never_changes (requests : list call_args) (w : world) (v : Z) :
  ref_counter_struct_size w = Some v ->
  ref_counter_struct_size
    (intercept_all unaryCall_original onNativeUnaryCall malloc_result requests w)
  = Some v.
Proof.
  revert w. induction requests as [|a rest IH]; intros w H; cbn [intercept_all].
  - exact H.
  - apply IH. apply (proj1 (hook_run a w)). exact H.
Qed.


(** The two copies of a rewrite into a fresh block succeed. *)
Lemma copies_succeed (m0 : gmap Z memval) (rc p hs : Z) (hdr : list memval)
      (bs : list byte) :
  0 <= hs ->
  load_cells m0 rc (Z.to_nat hs) = Some hdr ->
  (forall x, p <= x < p + (hs + Z.of_nat (List.length bs)) -> m0 !! x = None) ->
  let m1 := alloc_cells m0 p (Z.to_nat (hs + Z.of_nat (List.length bs))) in
  exists m2 m3,
    load_cells m1 rc (Z.to_nat hs) = Some hdr
    /\ store_cells m1 p hdr = Some m2
    /\ store_cells m2 (p + hs) (Val <$> bs) = Some m3.
Proof.
  intros Hpos Hhdr Hfree m1.
  pose proof (length_load_cells _ _ _ _ Hhdr) as Hlh.
  assert (H1 : load_cells m1 rc (Z.to_nat hs) = Some hdr).
  { rewrite <- Hhdr. apply load_cells_ext. intros i Hi.
    unfold m1. rewrite lookup_alloc_cells.
    destruct (decide _) as [Hin|_]; [|reflexivity].
    pose proof (lookup_load_cells _ _ _ _ Hhdr i Hi) as E.
    rewrite (Hfree (rc + Z.of_nat i)) in E by lia.
    symmetry in E. apply lookup_ge_None in E. lia. }
  destruct (store_cells_spec hdr m1 p) as (m2 & H2 & Hm2).
  { intros i Hi. unfold m1. rewrite lookup_alloc_cells.
    destruct (decide _) as [_|Hout]; [eauto | lia]. }
  destruct (store_cells_spec (Val <$> bs) m2 (p + hs)) as (m3 & H3 & _).
  { rewrite length_fmap. intros i Hi. rewrite Hm2.
    destruct (decide _) as [Hin|_]; [lia|].
    unfold m1. rewrite lookup_alloc_cells.
    destruct (decide _) as [_|Hout]; [eauto | lia]. }
  exists m2, m3. auto.
Qed.

(** X18.  When the reference counter is not the base of a live block
    (the slice's bytes are not owned by [malloc]), a rewrite has already
    allocated and filled the new block when [free] makes the run
    undefined: the new block stays allocated, the slice buffer still has
    its old fields, and the original dispatch is not called. *)
Theorem unaryCall_hook_free_fails
    (a : call_args) (w : world) (sp : Z) (sb : grpc.ref_counted_slice)
    (payload : list byte) (obj : NativeRequestData)
    (hs : Z) (hdr : list memval) :
  let st := w_store w in
  let rc := grpc.ref_counter sb in
  let len := Z.of_nat (List.length (buffer obj)) in
  let p := malloc_result st (hs + len) in
  slice_of st a = Some (sp, sb) ->
  rc <> 0 ->
  payload_of st sb = Some payload ->
  onNativeUnaryCall (uri a) payload = Some obj ->
  canceled obj = false ->
  hs = default (wsub (grpc.data sb) rc) (ref_counter_struct_size w) ->
  0 < hs ->
  load_cells (cells st) rc (Z.to_nat hs) = Some hdr ->
  blocks st !! rc = None ->
  fresh_block st p (hs + len) = true ->
  exists w',
    hook a w = Fault w'
    /\ w_trace w' = w_trace w ++ asked a sb payload
         ++ [EvMalloc (hs + len) p; EvMemcpy p rc hs;
             EvMemcpyArray (p + hs) (buffer obj); EvFree rc]
    /\ slice_of (w_store w') a = Some (sp, sb)
    /\ blocks (w_store w') = <[p := hs + len]> (blocks st).
Proof.
  intros st rc len p Hs Hrc Hpay Hdec Hcan Hhs Hpos Hhdr Hblk Hfresh. subst st.
  apply fresh_block_spec in Hfresh as (Hp0 & Hpn & Hfree & _).
  assert (Hlen : 0 <= len) by (unfold len; lia).
  destruct (copies_succeed (cells (w_store w)) rc p hs hdr (buffer obj))
    as (m2 & m3 & H1 & H2 & H3); [lia | exact Hhdr | exact Hfree |].
  assert (Hne : p <> rc).
  { intros E. pose proof (lookup_load_cells _ _ _ _ Hhdr 0%nat ltac:(lia)) as E0.
    rewrite Z.add_0_r, <- E, Hfree in E0 by lia.
    symmetry in E0. apply lookup_ge_None in E0.
    pose proof (length_load_cells _ _ _ _ Hhdr). lia. }
  enter Hs Hrc Hpay.
  rewrite Hdec, Hcan.
  rewrite run_bind.
  rewrite (run_static_local _ _ (wsub (grpc.data sb) (grpc.ref_counter sb))).
  2:{ read Hsb. read Hsb. reflexivity. }
  cbn [w_store log ref_counter_struct_size w_trace]. fold rc. rewrite <- Hhs.
  rewrite run_bind, run_malloc. cbn [w_store]. cbv zeta.
  rewrite (wadd_small hs) by (fold len; lia). fold len. fold p.
  destruct (Z.eqb_spec p 0) as [?|_]; [lia|].
  read Hsb. fold rc.
  rewrite run_bind, (run_memcpy _ _ _ hdr m2); [|lia|exact Hrc|exact H1|exact H2].
  rewrite (wadd_small p hs) by lia. tidy.
  rewrite run_bind, (run_memcpy_array _ _ m3); [|lia|exact H3]. tidy.
  read Hsb. fold rc.
  rewrite run_bind, run_free_any. tidy.
  destruct (Z.eqb_spec rc 0) as [?|_]; [contradiction|].
  rewrite lookup_insert_ne, Hblk by exact Hne.
  eexists. split; [reflexivity|]. cbn [w_trace w_store blocks].
  rewrite <- !app_assoc. split; [reflexivity|]. split; [|reflexivity].
  apply (slice_of_frame (w_store w)); try reflexivity. exact Hs.
Qed.
End UnaryCallProofs.

(** ** The unary-call interceptor on the concrete scene *)

Lemma unaryCall_hook_zero_ref_counter_witness :
  unaryCall_hook demo_original says_rewrite demo_malloc (demo_args 102) demo_world =
    Done 77 (set_store (log demo_world [EvUnaryCall (demo_args 102) demo_store])
                       demo_store).
Proof.
  apply (unaryCall_hook_zero_ref_counter demo_original says_rewrite demo_malloc
           (demo_args 102) demo_world 302
           {| grpc.ref_counter := 0; grpc.length := 0; grpc.data := 0 |}).
  - vm_compute. reflexivity.
  - reflexivity.
Defined.

Lemma unaryCall_hook_cancel_witness :
  unaryCall_hook demo_original says_cancel demo_malloc (demo_args 100) demo_world =
    Done 0 (log demo_world
              [EvGetRegion 1004 3; EvCallback "/snap/Send" [x61; x62; x63]]).
Proof.
  apply (unaryCall_hook_cancel demo_original says_cancel demo_malloc
           (demo_args 100) demo_world 300
           {| grpc.ref_counter := 1000; grpc.length := 3; grpc.data := 1004 |}
           [x61; x62; x63] {| canceled := true; buffer := [x61; x62; x63] |}).
  - vm_compute. reflexivity.
  - simpl. lia.
  - vm_compute. reflexivity.
  - reflexivity.
  - reflexivity.
Defined.

Lemma unaryCall_hook_no_opinion_witness :
  unaryCall_hook demo_original says_nothing demo_malloc (demo_args 100) demo_world =
    Done 77 (set_store
               (log demo_world
                  [EvGetRegion 1004 3; EvCallback "/snap/Send" [x61; x62; x63];
                   EvUnaryCall (demo_args 100) demo_store])
               demo_store).
Proof.
  apply (unaryCall_hook_no_opinion demo_original says_nothing demo_malloc
           (demo_args 100) demo_world 300
           {| grpc.ref_counter := 1000; grpc.length := 3; grpc.data := 1004 |}
           [x61; x62; x63]).
  - vm_compute. reflexivity.
  - simpl. lia.
  - vm_compute. reflexivity.
  - reflexivity.
Defined.

Lemma unaryCall_hook_rewrite_witness :
  exists st',
    unaryCall_hook demo_original says_rewrite demo_malloc (demo_args 100) demo_world =
      Done 77
           {| w_store := st';
              ref_counter_struct_size := Some 4;
              w_trace :=
                [EvGetRegion 1004 3; EvCallback "/snap/Send" [x61; x62; x63];
                 EvMalloc 6 2000; EvMemcpy 2000 1000 4;
                 EvMemcpyArray 2004 [x01; x02]; EvFree 1000;
                 EvUnaryCall (demo_args 100) st'] |}
    /\ slice_of st' (demo_args 100) =
         Some (300, {| grpc.ref_counter := 2000; grpc.length := 2; grpc.data := 2004 |})
    /\ load_bytes (cells st') 2004 2 = Some [x01; x02]
    /\ load_cells (cells st') 2000 4 = Some [Val x11; Val x22; Val x33; Val x44]
    /\ blocks st' !! 2000 = Some 6
    /\ blocks st' !! 1000 = None.
Proof.
  apply (unaryCall_hook_rewrite demo_original says_rewrite demo_malloc
           (demo_args 100) demo_world 300
           {| grpc.ref_counter := 1000; grpc.length := 3; grpc.data := 1004 |}
           [x61; x62; x63] {| canceled := false; buffer := [x01; x02] |}
           7 [Val x11; Val x22; Val x33; Val x44]).
  - vm_compute. reflexivity.
  - simpl. lia.
  - vm_compute. reflexivity.
  - reflexivity.
  - reflexivity.
  - vm_compute. reflexivity.
  - vm_compute. reflexivity.
  - vm_compute. reflexivity.
  - vm_compute. reflexivity.
Defined.

Lemma unaryCall_hook_malloc_fails_witness :
  unaryCall_hook demo_original says_rewrite no_memory (demo_args 101) demo_world =
    Fault {| w_store := demo_store;
             ref_counter_struct_size := Some 8;
             w_trace :=
               [EvGetRegion 5008 1; EvCallback "/snap/Send" [x7a];
                EvMalloc 10 0; EvMemcpy 0 5000 8] |}.
Proof.
  apply (unaryCall_hook_malloc_fails demo_original says_rewrite no_memory
           (demo_args 101) demo_world 301
           {| grpc.ref_counter := 5000; grpc.length := 1; grpc.data := 5008 |}
           [x7a] {| canceled := false; buffer := [x01; x02] |}).
  - vm_compute. reflexivity.
  - simpl. lia.
  - vm_compute. reflexivity.
  - reflexivity.
  - reflexivity.
  - reflexivity.
Defined.

Lemma header_size_is_cached_witness :
  exists st',
    unaryCall_hook demo_original says_rewrite demo_malloc (demo_args 101) demo_world_2 =
      Done 77
           {| w_store := st';
              ref_counter_struct_size := Some 4;
              w_trace := w_trace demo_world_2
                ++ [EvGetRegion 5008 1; EvCallback "/snap/Send" [x7a];
                    EvMalloc 6 3000; EvMemcpy 3000 5000 4;
                    EvMemcpyArray 3004 [x01; x02]; EvFree 5000;
                    EvUnaryCall (demo_args 101) st'] |}
    /\ (grpc.data <$> (snd <$> slice_of st' (demo_args 101))) = Some 3004
    /\ blocks st' !! 3000 = Some 6.
Proof.
  apply (header_size_is_cached demo_original says_rewrite demo_malloc
           (demo_args 101) demo_world_2 301
           {| grpc.ref_counter := 5000; grpc.length := 1; grpc.data := 5008 |}
           [x7a] {| canceled := false; buffer := [x01; x02] |}
           9 [Val xa1; Val xa2; Val xa3; Val xa4]).
  - vm_compute. reflexivity.
  - simpl. lia.
  - vm_compute. reflexivity.
  - reflexivity.
  - reflexivity.
  - vm_compute. discriminate.
  - vm_compute. reflexivity.
  - vm_compute. reflexivity.
  - vm_compute. reflexivity.
Defined.

Lemma unaryCall_hook_null_pointer_witness :
  unaryCall_hook demo_original says_rewrite demo_malloc (demo_args 0) demo_world =
    Fault demo_world
  /\ exists p bb sb,
       buffer_ptr (demo_args 100) <> 0
       /\ ptrs demo_store !! buffer_ptr (demo_args 100) = Some p
       /\ p <> 0 /\ byte_buffers demo_store !! p = Some bb
       /\ grpc.slice_buffer bb <> 0
       /\ slices demo_store !! grpc.slice_buffer bb = Some sb.
Proof.
  split.
  - apply (proj1 (unaryCall_hook_null_pointer demo_original says_rewrite demo_malloc
                    (demo_args 0) demo_world)).
    left. reflexivity.
  - apply (proj2 (unaryCall_hook_null_pointer demo_original says_nothing demo_malloc
                    (demo_args 100) demo_world) 77
                 (set_store
                    (log demo_world
                       [EvGetRegion 1004 3; EvCallback "/snap/Send" [x61; x62; x63];
                        EvUnaryCall (demo_args 100) demo_store])
                    demo_store)).
    vm_compute. reflexivity.
Defined.

(** C2 as stated fails: with an allocator that has no memory the run of
    the first request does not reach the original dispatch; it stops in
    the first [memcpy], on the null block. *)
Lemma malloc_failure_is_not_survived :
  unaryCall_hook demo_original says_rewrite no_memory (demo_args 100) demo_world =
    Fault {| w_store := demo_store;
             ref_counter_struct_size := Some 4;
             w_trace :=
               [EvGetRegion 1004 3; EvCallback "/snap/Send" [x61; x62; x63];
                EvMalloc 6 0; EvMemcpy 0 1000 4] |}
  /\ existsb is_unary_call
       (w_trace (final (unaryCall_hook demo_original says_rewrite no_memory
                          (demo_args 100) demo_world))) = false.
Proof. split; vm_compute; reflexivity. Qed.

(** C3 as stated fails: the second request has an 8-byte header, and is
    rewritten with the 4 bytes cached by the first: the new block has
    4 + 2 bytes, 4 bytes of header are copied, and the data pointer is put
    4 bytes into the block. *)
Lemma header_size_not_recomputed :
  ref_counter_struct_size demo_world_2 = Some 4
  /\ slice_of (w_store demo_world_2) (demo_args 101) =
       Some (301, {| grpc.ref_counter := 5000; grpc.length := 1; grpc.data := 5008 |})
  /\ wsub 5008 5000 = 8
  /\ (exists r, unaryCall_hook demo_original says_rewrite demo_malloc
                  (demo_args 101) demo_world_2 = Done r demo_world_3)
  /\ w_trace demo_world_3 !! 9%nat = Some (EvMalloc 6 3000)
  /\ w_trace demo_world_3 !! 10%nat = Some (EvMemcpy 3000 5000 4)
  /\ slice_of (w_store demo_world_3) (demo_args 101) =
       Some (301, {| grpc.ref_counter := 3000; grpc.length := 2; grpc.data := 3004 |}).
Proof.
  repeat split; try (vm_compute; reflexivity).
  exists 77. vm_compute. reflexivity.
Qed.

(** C1 as stated fails, in two ways.  When the allocation fails there is
    no resulting buffer: the run stops on the null block.  And when the
    cached header size is not this buffer's, the header is not carried
    over: of the second request's 8 header bytes the new block holds 4,
    and the data pointer is 4 bytes into the block, not 8. *)
Lemma rewrite_not_always_faithful :
  (exists w, unaryCall_hook demo_original says_rewrite no_memory
               (demo_args 100) demo_world = Fault w)
  /\ load_cells (cells (w_store demo_world_2)) 5000 8 =
       Some [Val xa1; Val xa2; Val xa3; Val xa4; Val xa5; Val xa6; Val xa7; Val xa8]
  /\ (exists r, unaryCall_hook demo_original says_rewrite demo_malloc
                  (demo_args 101) demo_world_2 = Done r demo_world_3)
  /\ slice_of (w_store demo_world_3) (demo_args 101) =
       Some (301, {| grpc.ref_counter := 3000; grpc.length := 2; grpc.data := 3004 |})
  /\ load_cells (cells (w_store demo_world_3)) 3000 8 = None
  /\ load_cells (cells (w_store demo_world_3)) 3000 6 =
       Some [Val xa1; Val xa2; Val xa3; Val xa4; Val x01; Val x02].
Proof.
  repeat split; try (vm_compute; reflexivity).
  - eexists. vm_compute. reflexivity.
  - exists 77. vm_compute. reflexivity.
Qed.

(** ** Character arrays *)

Lemma cstr_app (s rest : list ascii) :
  nul_free s = true -> cstr (s ++ NUL :: rest) = Some s.
Proof.
  induction s as [|c s IH]; intros H.
  - reflexivity.
  - cbn [nul_free forallb] in H. apply andb_true_iff in H as [Hc Hs].
    cbn [app cstr]. destruct (Ascii.eqb c NUL); [discriminate|].
    fold (nul_free s) in Hs. rewrite (IH Hs). reflexivity.
Qed.

Lemma cstr_no_terminator (s : list ascii) :
  nul_free s = true -> cstr s = None.
Proof.
  induction s as [|c s IH]; intros H; [reflexivity|].
  cbn [nul_free forallb] in H. apply andb_true_iff in H as [Hc Hs].
  cbn [cstr]. destruct (Ascii.eqb c NUL); [discriminate|].
  fold (nul_free s) in Hs. rewrite (IH Hs). reflexivity.
Qed.

Lemma list_ascii_of_string_app (s t : string) :
  list_ascii_of_string (s ++ t) = list_ascii_of_string s ++ list_ascii_of_string t.
Proof.
  induction s as [|c s IH]; [reflexivity|].
  simpl. f_equal. exact IH.
Qed.

Lemma nul_free_app (s t : list ascii) :
  nul_free (s ++ t) = nul_free s && nul_free t.
Proof. unfold nul_free. apply forallb_app. Qed.

Lemma nul_free_digits (d : Decimal.uint) :
  nul_free (list_ascii_of_string (NilEmpty.string_of_uint d)) = true.
Proof. induction d; cbn; try assumption; reflexivity. Qed.

Lemma nul_free_format_int (n : Z) :
  nul_free (list_ascii_of_string (format_int n)) = true.
Proof.
  unfold format_int, NilZero.string_of_int, NilZero.string_of_uint.
  destruct (Z.to_int n) as [d|d].
  - destruct d; try reflexivity; apply (nul_free_digits (_ d)).
  - cbn [list_ascii_of_string nul_free forallb]. 
    destruct d; try reflexivity; apply (nul_free_digits (_ d)).
Qed.

Lemma nul_free_proc_link (fd : Z) :
  nul_free (list_ascii_of_string (proc_link fd)) = true.
Proof.
  unfold proc_link. rewrite list_ascii_of_string_app, nul_free_app.
  rewrite nul_free_format_int. reflexivity.
Qed.

Lemma starts_with_spec (pat s : list ascii) :
  starts_with pat s = true <-> exists rest, s = pat ++ rest.
Proof.
  revert s. induction pat as [|p pat IH]; intros s.
  - split; [intros _; exists s; reflexivity | reflexivity].
  - destruct s as [|c s]; cbn [starts_with].
    + split; [discriminate | intros [rest H]; discriminate].
    + rewrite andb_true_iff, Ascii.eqb_eq, IH. split.
      * intros [-> [rest ->]]. exists rest. reflexivity.
      * intros [rest H]. inversion H; subst. split; [reflexivity | eauto].
Qed.

(** [find] finds the pattern exactly when the string contains it. *)
Lemma find_from_spec (pat s : list ascii) (i : nat) :
  found (find_from pat s i) = true <-> exists before rest, s = before ++ pat ++ rest.
Proof.
  revert i. induction s as [|c s IH]; intros i; cbn [find_from].
  - destruct (starts_with pat []) eqn:E.
    + split; [|reflexivity]. intros _. apply starts_with_spec in E as [rest E].
      exists [], rest. exact E.
    + split; [discriminate|]. intros (before & rest & H).
      destruct before; [|discriminate]. cbn [app] in H.
      assert (starts_with pat [] = true) by (apply starts_with_spec; eauto).
      congruence.
  - destruct (starts_with pat (c :: s)) eqn:E.
    + split; [|reflexivity]. intros _. apply starts_with_spec in E as [rest E].
      exists [], rest. exact E.
    + rewrite IH. split.
      * intros (before & rest & ->). exists (c :: before), rest. reflexivity.
      * intros (before & rest & H). destruct before as [|b before].
        -- cbn [app] in H.
           assert (starts_with pat (c :: s) = true) by (apply starts_with_spec; eauto).
           congruence.
        -- inversion H; subst. eauto.
Qed.

Lemma length_list_ascii_of_string (s : string) :
  List.length (list_ascii_of_string s) = String.length s.
Proof. induction s as [|c s IH]; [reflexivity|]. simpl. f_equal. exact IH. Qed.

(** The array after [snprintf] with a text that fits: the text, then
    terminators up to the end. *)
Lemma snprintf_fits (size : nat) (s : string) :
  (String.length s < size)%nat ->
  snprintf (replicate size NUL) size s =
    list_ascii_of_string s ++ replicate (size - String.length s) NUL.
Proof.
  intros H. unfold snprintf, overwrite.
  rewrite <- length_list_ascii_of_string in *.
  set (l := list_ascii_of_string s) in *.
  rewrite take_ge by lia.
  rewrite drop_replicate, length_app. cbn [List.length].
  rewrite <- app_assoc. f_equal.
  replace (size - List.length l)%nat with (S (size - (List.length l + 1))) by lia.
  reflexivity.
Qed.

(** Overwriting that array with a text that is no shorter than the one
    it holds and still fits leaves exactly the new text. *)
Lemma overwrite_fits (size : nat) (old new : list ascii) :
  (List.length old <= List.length new < size)%nat ->
  overwrite (old ++ replicate (size - List.length old) NUL) (take size new) =
    new ++ replicate (size - List.length new) NUL.
Proof.
  intros H. unfold overwrite. rewrite take_ge by lia. f_equal.
  rewrite drop_app_ge by lia. rewrite drop_replicate. f_equal. lia.
Qed.

(** Overwriting it with a text that fills it leaves no terminator. *)
Lemma overwrite_full (size : nat) (buf new : list ascii) :
  List.length buf = size -> (size <= List.length new)%nat ->
  overwrite buf (take size new) = take size new.
Proof.
  intros Hb H. unfold overwrite. rewrite length_take, Nat.min_l by lia.
  rewrite drop_ge by lia. apply app_nil_r.
Qed.

Lemma cstr_padded (s : list ascii) (k : nat) :
  nul_free s = true -> (0 < k)%nat -> cstr (s ++ replicate k NUL) = Some s.
Proof.
  intros Hs Hk. destruct k as [|k]; [lia|]. apply cstr_app. exact Hs.
Qed.

Lemma nul_free_take (n : nat) (s : list ascii) :
  nul_free s = true -> nul_free (take n s) = true.
Proof.
  revert n. induction s as [|c s IH]; intros n H.
  - destruct n; reflexivity.
  - destruct n as [|n]; [reflexivity|].
    cbn [nul_free forallb] in H. apply andb_true_iff in H as [Hc Hs].
    cbn [take nul_free forallb]. rewrite Hc. apply (IH n Hs).
Qed.

(** ** The text of a descriptor *)

Lemma nb_digits_double (d : Decimal.uint) :
  (Decimal.nb_digits (Decimal.Little.double d) <= S (Decimal.nb_digits d))%nat
  /\ (Decimal.nb_digits (Decimal.Little.succ_double d) <= S (Decimal.nb_digits d))%nat.
Proof. induction d; simpl; lia. Qed.

Lemma nb_digits_to_little_uint (p : positive) :
  (Decimal.nb_digits (Pos.to_little_uint p) <= Pos.size_nat p)%nat.
Proof.
  induction p as [p IH|p IH|]; simpl.
  - pose proof (proj2 (nb_digits_double (Pos.to_little_uint p))). lia.
  - pose proof (proj1 (nb_digits_double (Pos.to_little_uint p))). lia.
  - lia.
Qed.

Lemma length_string_of_uint (d : Decimal.uint) :
  String.length (NilEmpty.string_of_uint d) = Decimal.nb_digits d.
Proof. induction d; simpl; congruence. Qed.

Lemma length_digits_of_pos (p : positive) :
  (p <= 2 ^ 31)%positive ->
  (String.length (NilZero.string_of_uint (Pos.to_uint p)) <= 32)%nat.
Proof.
  intros Hp.
  assert (Hs : (Pos.size_nat p <= 32)%nat).
  { change 32%nat with (Pos.size_nat (2 ^ 31 + 1)).
    apply Pos.size_nat_monotone. lia. }
  pose proof (nb_digits_to_little_uint p) as Hd.
  unfold Pos.to_uint. rewrite <- DecimalFacts.nb_digits_rev in Hd.
  unfold NilZero.string_of_uint.
  destruct (Decimal.rev (Pos.to_little_uint p));
    try (rewrite length_string_of_uint; lia).
  simpl. lia.
Qed.

Lemma length_format_int (n : Z) :
  int_range n -> (String.length (format_int n) <= 33)%nat.
Proof.
  unfold int_range, format_int. intros Hn.
  destruct n as [|p|p]; cbn [Z.to_int NilZero.string_of_int].
  - simpl. lia.
  - pose proof (length_digits_of_pos p ltac:(lia)). lia.
  - pose proof (length_digits_of_pos p ltac:(lia)).
    cbn [String.length]. lia.
Qed.

Lemma length_proc_link (fd : Z) :
  int_range fd -> (String.length (proc_link fd) < NAME_SIZE)%nat.
Proof.
  intros H. unfold proc_link.
  rewrite <- length_list_ascii_of_string, list_ascii_of_string_app, length_app.
  rewrite !length_list_ascii_of_string.
  pose proof (length_format_int fd H).
  change (String.length "/proc/self/fd/") with 14%nat.
  unfold NAME_SIZE. lia.
Qed.

Lemma digits_int_chars (d : Decimal.uint) :
  forall c, In c (list_ascii_of_string (NilEmpty.string_of_uint d)) -> In c int_chars.
Proof.
  induction d; intros c Hc; simpl in Hc;
    try contradiction;
    (destruct Hc as [<-|Hc]; [unfold int_chars; simpl; tauto | auto]).
Qed.

Lemma format_int_chars (n : Z) :
  forall c, In c (list_ascii_of_string (format_int n)) -> In c int_chars.
Proof.
  intros c. unfold format_int, NilZero.string_of_int, NilZero.string_of_uint.
  destruct (Z.to_int n) as [d|d].
  - destruct d; try apply (digits_int_chars (_ d)).
    simpl. intros [<-|[]]. unfold int_chars. simpl. tauto.
  - cbn [list_ascii_of_string In]. intros [<-|Hc].
    + unfold int_chars. simpl. tauto.
    + revert Hc. destruct d; try apply (digits_int_chars (_ d)).
      simpl. intros [<-|[]]. unfold int_chars. simpl. tauto.
Qed.

(** Where the text "/proc/self/fd/N" has the letter s, and that it has no
    letter t: the last letters of the two markers. *)
Lemma proc_link_letter (fd : Z) (j : nat) (c : ascii) :
  list_ascii_of_string (proc_link fd) !! j = Some c ->
  (c = "s"%char -> j = 6%nat) /\ c <> "t"%char.
Proof.
  unfold proc_link. rewrite list_ascii_of_string_app.
  intros H.
  destruct (Nat.lt_ge_cases j 14) as [Hj|Hj].
  - rewrite lookup_app_l in H by (simpl; lia).
    do 14 (destruct j as [|j]; [inversion H; subst; split; [try discriminate; reflexivity | discriminate]|]).
    lia.
  - rewrite lookup_app_r in H by (simpl; lia).
    apply list_elem_of_lookup_2, list_elem_of_In, format_int_chars in H.
    unfold int_chars in H. simpl in H.
    split; [intros ->|intros ->];
      repeat (destruct H as [H|H]; [discriminate|]); contradiction.
Qed.

Lemma nul_free_drop (n : nat) (s : list ascii) :
  nul_free s = true -> nul_free (drop n s) = true.
Proof.
  revert n. induction s as [|c s IH]; intros n H.
  - destruct n; reflexivity.
  - destruct n as [|n]; [exact H|].
    cbn [nul_free forallb] in H. apply andb_true_iff in H as [_ Hs].
    apply (IH n Hs).
Qed.

(** Overwriting the array with a text that fits leaves the new text and,
    behind it, what it did not cover of the old one. *)
Lemma overwrite_short (size : nat) (old new : list ascii) :
  (List.length old < size)%nat -> (List.length new < size)%nat ->
  exists k, (0 < k)%nat /\
    overwrite (old ++ replicate (size - List.length old) NUL) (take size new) =
      (new ++ drop (List.length new) old) ++ replicate k NUL.
Proof.
  intros Ho Hn. unfold overwrite. rewrite take_ge by lia.
  rewrite skipn_app, drop_replicate.
  exists (size - List.length old - (List.length new - List.length old))%nat.
  split; [lia | apply app_assoc].
Qed.

Lemma found_contains (s pat : string) :
  found (string_find s pat) = true <-> contains s pat.
Proof. unfold string_find, contains. apply find_from_spec. Qed.

(** A marker whose last letter the text "/proc/self/fd/N" has only near
    its start, if at all, is not completed by what is left of that text:
    when it occurs in the name the interceptor sees, it occurs in the link
    target. *)
Lemma contains_seen_name (fd : Z) (target pat : string) (c : ascii) :
  last (list_ascii_of_string pat) = Some c ->
  (forall j, list_ascii_of_string (proc_link fd) !! j = Some c ->
             (j + 1 < String.length pat)%nat) ->
  contains (seen_name fd target) pat -> contains target pat.
Proof.
  unfold contains, seen_name. rewrite list_ascii_of_string_of_list_ascii.
  rewrite <- !length_list_ascii_of_string.
  set (T := list_ascii_of_string target).
  set (l := list_ascii_of_string (proc_link fd)).
  set (m := list_ascii_of_string pat).
  intros Hlast Hc (before & rest & E).
  destruct (Nat.le_gt_cases (List.length before + List.length m) (List.length T))
    as [Hin|Hout].
  - exists before, (take (List.length T - (List.length before + List.length m)) rest).
    assert (ET : T = take (List.length T) (T ++ drop (List.length T) l))
      by (rewrite take_app_length; reflexivity).
    rewrite E in ET. rewrite ET at 1.
    rewrite app_assoc, take_app_ge by (rewrite length_app; lia).
    rewrite length_app, <- app_assoc. reflexivity.
  - exfalso.
    assert (Hm : m <> []) by (intros Hm; rewrite Hm in Hlast; discriminate).
    assert (Hlen : (0 < List.length m)%nat) by (destruct m; [contradiction | simpl; lia]).
    set (j := (List.length before + List.length m - 1)%nat).
    assert (Hj : (T ++ drop (List.length T) l) !! j = Some c).
    { rewrite E, lookup_app_r by (unfold j; lia).
      rewrite lookup_app_l by (unfold j; lia).
      rewrite last_lookup in Hlast.
      replace (j - List.length before)%nat with (Nat.pred (List.length m))
        by (unfold j; lia).
      exact Hlast. }
    rewrite lookup_app_r in Hj by (unfold j; lia).
    rewrite lookup_drop in Hj.
    replace (List.length T + (j - List.length T))%nat with j in Hj by (unfold j; lia).
    apply Hc in Hj. unfold j in Hj. lia.
Qed.

(** ** The file-status interceptor *)

Section FstatProofs.

Variable mem : Type.
Variable native_config : native_config_t.
Variable fstat_original : Z -> Z -> os mem -> Z * os mem.

#[local] Abbreviation hook := (fstat_hook mem native_config fstat_original).

(** A descriptor whose path fits the array: the interceptor decides on
    that path. *)
Lemma fstat_hook_resolves (fd buf : Z) (o : os mem) (target : string) :
  links o !! proc_link fd = Some target ->
  (String.length (proc_link fd) <= String.length target < NAME_SIZE)%nat ->
  nul_free (list_ascii_of_string target) = true ->
  hook fd buf o =
    if disable_metrics native_config && found (string_find target METRICS_MARKER)
    then Done (-1) (unlink mem o target, [EvUnlink target])
    else if disable_bitmoji native_config && found (string_find target BITMOJI_MARKER)
    then Done (-1) (o, [])
    else let (r, o') := fstat_original fd buf o in Done r (o', [EvFstat fd buf]).
Proof.
  intros Hl Hlen Hnul. unfold fstat_hook. fold (proc_link fd).
  rewrite snprintf_fits by lia.
  rewrite cstr_padded; [|apply nul_free_proc_link|lia].
  rewrite string_of_list_ascii_of_string.
  unfold readlink. rewrite Hl.
  rewrite <- (length_list_ascii_of_string (proc_link fd)).
  rewrite overwrite_fits by (rewrite !length_list_ascii_of_string; lia).
  rewrite cstr_padded; [|exact Hnul|rewrite length_list_ascii_of_string; lia].
  rewrite string_of_list_ascii_of_string. reflexivity.
Qed.

(** A descriptor whose path does not fit the array: the array is left
    without terminator, and reading it as a string is undefined. *)
Lemma fstat_hook_long_path (fd buf : Z) (o : os mem) (target : string) :
  links o !! proc_link fd = Some target ->
  (String.length (proc_link fd) < NAME_SIZE <= String.length target)%nat ->
  nul_free (list_ascii_of_string target) = true ->
  hook fd buf o = Fault (o, []).
Proof.
  intros Hl Hlen Hnul. unfold fstat_hook. fold (proc_link fd).
  rewrite snprintf_fits by lia.
  rewrite cstr_padded; [|apply nul_free_proc_link|lia].
  rewrite string_of_list_ascii_of_string.
  unfold readlink. rewrite Hl.
  rewrite overwrite_full.
  - rewrite cstr_no_terminator; [reflexivity|]. apply nul_free_take. exact Hnul.
  - rewrite length_app, length_replicate, length_list_ascii_of_string. lia.
  - rewrite length_list_ascii_of_string. lia.
Qed.


(** X17.  On a path that fits the array and carries the companion marker,
    with the companion flag set and the metrics branch not taken: the call
    fails, nothing is removed, the original is not called. *)
Lemma fstat_hook_bitmoji (fd buf : Z) (o : os mem) (target : string) :
  links o !! proc_link fd = Some target ->
  (String.length (proc_link fd) <= String.length target < NAME_SIZE)%nat ->
  nul_free (list_ascii_of_string target) = true ->
  disable_metrics native_config && found (string_find target METRICS_MARKER) = false ->
  disable_bitmoji native_config = true ->
  found (string_find target BITMOJI_MARKER) = true ->
  hook fd buf o = Done (-1) (o, []).
Proof.
  intros Hl Hlen Hnul Hm Hflag Hfound.
  rewrite (fstat_hook_resolves fd buf o target Hl Hlen Hnul), Hm, Hflag, Hfound.
  reflexivity.
Qed.

(** C9.  A run of the interceptor that returns without having called the
    original primitive returns -1 and leaves the memory of the caller,
    the status buffer in it, as it was; a run that did call the original
    returns the original's result and leaves what the original leaves. *)
Theorem fstat_hook_denial_frame
    (fd buf : Z) (o : os mem) (r : Z) (o' : os mem) (calls : list fs_event) :
  hook fd buf o = Done r (o', calls) ->
  (existsb is_fstat calls = false -> r = -1 /\ user_mem o' = user_mem o)
  /\ (existsb is_fstat calls = true -> (r, o') = fstat_original fd buf o).
Proof.
  unfold fstat_hook. intros H.
  destruct (cstr _) as [link|]; [|discriminate].
  destruct (cstr _) as [chars|]; [|discriminate].
  destruct (_ && _).
  - inversion H; subst. split; [auto | discriminate].
  - destruct (_ && _).
    + inversion H; subst. split; [auto | discriminate].
    + destruct (fstat_original fd buf o) as [r0 o0].
      inversion H; subst. split; [discriminate | reflexivity].
Qed.

(** ** The file-status interceptor: every descriptor *)

(** The array after [snprintf], for a descriptor of type [int]: the text
    "/proc/self/fd/N" in full, terminated. *)
Lemma name_of_descriptor (fd : Z) :
  int_range fd ->
  cstr (snprintf (replicate NAME_SIZE NUL) NAME_SIZE (proc_link fd)) =
    Some (list_ascii_of_string (proc_link fd)).
Proof.
  intros H. pose proof (length_proc_link fd H).
  rewrite snprintf_fits by lia.
  apply cstr_padded; [apply nul_free_proc_link | lia].
Qed.

(** The interceptor on a link target that fits the array. *)
Lemma fstat_hook_resolves_any (fd buf : Z) (o : os mem) (target : string) :
  int_range fd ->
  links o !! proc_link fd = Some target ->
  (String.length target < NAME_SIZE)%nat ->
  nul_free (list_ascii_of_string target) = true ->
  hook fd buf o =
    let fileName := seen_name fd target in
    if disable_metrics native_config && found (string_find fileName METRICS_MARKER)
    then Done (-1) (unlink mem o fileName, [EvUnlink fileName])
    else if disable_bitmoji native_config && found (string_find fileName BITMOJI_MARKER)
    then Done (-1) (o, [])
    else let (r, o') := fstat_original fd buf o in Done r (o', [EvFstat fd buf]).
Proof.
  intros Hfd Hl Hlen Hnul. pose proof (length_proc_link fd Hfd) as Hp.
  unfold fstat_hook. fold (proc_link fd).
  rewrite name_of_descriptor by exact Hfd.
  rewrite string_of_list_ascii_of_string.
  unfold readlink. rewrite Hl.
  rewrite snprintf_fits by lia.
  rewrite <- (length_list_ascii_of_string (proc_link fd)).
  destruct (overwrite_short NAME_SIZE (list_ascii_of_string (proc_link fd))
              (list_ascii_of_string target)) as (k & Hk & ->);
    [rewrite length_list_ascii_of_string; lia ..|].
  rewrite cstr_padded; [|rewrite nul_free_app, Hnul; apply nul_free_drop,
                          nul_free_proc_link | exact Hk].
  rewrite length_list_ascii_of_string. reflexivity.
Qed.

(** A target at least as long as the text "/proc/self/fd/N" is seen as it
    is. *)
Lemma seen_name_long (fd : Z) (target : string) :
  (String.length (proc_link fd) <= String.length target)%nat ->
  seen_name fd target = target.
Proof.
  intros H. unfold seen_name.
  rewrite drop_ge by (rewrite length_list_ascii_of_string; exact H).
  rewrite app_nil_r. apply string_of_list_ascii_of_string.
Qed.

(** X1.  For a descriptor of type [int] whose link target has fewer than
    256 characters, the interceptor decides on [seen_name], and unlinks
    that name in the metrics branch.  It is the target where the target
    is at least as long as the text "/proc/self/fd/N"; where the target
    is shorter it is another name, the target followed by the end of that
    text, because [readlink] writes no terminator. *)
Theorem fstat_hook_sees (fd buf : Z) (o : os mem) (target : string) :
  int_range fd ->
  links o !! proc_link fd = Some target ->
  (String.length target < NAME_SIZE)%nat ->
  nul_free (list_ascii_of_string target) = true ->
  hook fd buf o =
    (let fileName := seen_name fd target in
     if disable_metrics native_config && found (string_find fileName METRICS_MARKER)
     then Done (-1) (unlink mem o fileName, [EvUnlink fileName])
     else if disable_bitmoji native_config && found (string_find fileName BITMOJI_MARKER)
     then Done (-1) (o, [])
     else let (r, o') := fstat_original fd buf o in Done r (o', [EvFstat fd buf]))
  /\ ((String.length (proc_link fd) <= String.length target)%nat ->
      seen_name fd target = target)
  /\ ((String.length target < String.length (proc_link fd))%nat ->
      seen_name fd target <> target).
Proof.
  intros Hfd Hl Hlen Hnul. split; [|split].
  - apply fstat_hook_resolves_any; assumption.
  - apply seen_name_long.
  - intros Hshort E. apply (f_equal String.length) in E.
    unfold seen_name in E.
    rewrite <- (length_list_ascii_of_string (string_of_list_ascii _)) in E.
    rewrite list_ascii_of_string_of_list_ascii, length_app, length_drop in E.
    rewrite !length_list_ascii_of_string in E. lia.
Qed.

Lemma seen_name_no_marker (fd : Z) (target : string) :
  (contains (seen_name fd target) METRICS_MARKER -> contains target METRICS_MARKER)
  /\ (contains (seen_name fd target) BITMOJI_MARKER -> contains target BITMOJI_MARKER).
Proof.
  split.
  - apply (contains_seen_name fd target METRICS_MARKER "s"); [reflexivity|].
    intros j Hj. apply proc_link_letter in Hj as [Hs _].
    rewrite (Hs eq_refl). simpl. lia.
  - apply (contains_seen_name fd target BITMOJI_MARKER "t"); [reflexivity|].
    intros j Hj. apply proc_link_letter in Hj as [_ Ht]. contradiction.
Qed.

Lemma proc_link_no_marker (fd : Z) :
  found (string_find (proc_link fd) METRICS_MARKER) = false
  /\ found (string_find (proc_link fd) BITMOJI_MARKER) = false.
Proof.
  assert (E : seen_name fd EmptyString = proc_link fd).
  { unfold seen_name.
    change (list_ascii_of_string "") with (@nil ascii).
    change (String.length "") with 0%nat.
    cbn [app drop]. apply string_of_list_ascii_of_string. }
  destruct (seen_name_no_marker fd EmptyString) as [Hm Hb]. rewrite E in Hm, Hb.
  split.
  - destruct (found _) eqn:F; [|reflexivity].
    apply found_contains, Hm in F. destruct F as ([|? ?] & ? & F); discriminate.
  - destruct (found _) eqn:F; [|reflexivity].
    apply found_contains, Hb in F. destruct F as ([|? ?] & ? & F); discriminate.
Qed.

(** X2.  When [readlink] fails (the descriptor has no link), the array
    keeps the text "/proc/self/fd/N", which carries neither marker: the
    call is forwarded to the original whatever the flags are, and its
    result returned. *)
Theorem fstat_hook_no_link (fd buf : Z) (o : os mem) :
  int_range fd ->
  links o !! proc_link fd = None ->
  hook fd buf o =
    let (r, o') := fstat_original fd buf o in Done r (o', [EvFstat fd buf]).
Proof.
  intros Hfd Hl. unfold fstat_hook. fold (proc_link fd).
  rewrite name_of_descriptor by exact Hfd.
  rewrite string_of_list_ascii_of_string.
  unfold readlink. rewrite Hl.
  rewrite name_of_descriptor by exact Hfd.
  rewrite string_of_list_ascii_of_string.
  destruct (proc_link_no_marker fd) as [-> ->].
  rewrite !andb_false_r. reflexivity.
Qed.

(** X3.  The interceptor is transparent for every descriptor whose link
    target (fewer than 256 characters) carries no marker whose flag is
    set: the original is called once with the same arguments and its
    result returned, and no file is removed.  This holds also where the
    target is shorter than the text "/proc/self/fd/N" and the name seen
    ends in the rest of that text. *)
Theorem fstat_hook_transparent (fd buf : Z) (o : os mem) (target : string) :
  int_range fd ->
  links o !! proc_link fd = Some target ->
  (String.length target < NAME_SIZE)%nat ->
  nul_free (list_ascii_of_string target) = true ->
  ~ (disable_metrics native_config = true /\ contains target METRICS_MARKER) ->
  ~ (disable_bitmoji native_config = true /\ contains target BITMOJI_MARKER) ->
  hook fd buf o =
    let (r, o') := fstat_original fd buf o in Done r (o', [EvFstat fd buf]).
Proof.
  intros Hfd Hl Hlen Hnul Hm Hb.
  rewrite (fstat_hook_resolves_any fd buf o target Hfd Hl Hlen Hnul). cbv zeta.
  destruct (seen_name_no_marker fd target) as [Sm Sb].
  assert (Em : disable_metrics native_config
               && found (string_find (seen_name fd target) METRICS_MARKER) = false).
  { destruct (disable_metrics native_config); [|reflexivity].
    destruct (found (string_find (seen_name fd target) METRICS_MARKER)) eqn:F;
      [|reflexivity].
    exfalso. apply Hm. split; [reflexivity|]. apply Sm, found_contains, F. }
  assert (Eb : disable_bitmoji native_config
               && found (string_find (seen_name fd target) BITMOJI_MARKER) = false).
  { destruct (disable_bitmoji native_config); [|reflexivity].
    destruct (found (string_find (seen_name fd target) BITMOJI_MARKER)) eqn:F;
      [|reflexivity].
    exfalso. apply Hb. split; [reflexivity|]. apply Sb, found_contains, F. }
  rewrite Em, Eb. reflexivity.
Qed.

(** X4.  A descriptor whose link target has 256 characters or more makes
    the run undefined whatever the flags are, also with both flags off:
    the array is full and has no terminator when it is read as a string.
    Nothing has been removed and the original has not been called. *)
Theorem fstat_hook_long_target (fd buf : Z) (o : os mem) (target : string) :
  int_range fd ->
  links o !! proc_link fd = Some target ->
  (NAME_SIZE <= String.length target)%nat ->
  nul_free (list_ascii_of_string target) = true ->
  hook fd buf o = Fault (o, []).
Proof.
  intros Hfd Hl Hlen Hnul. pose proof (length_proc_link fd Hfd).
  apply (fstat_hook_long_path fd buf o target Hl); [lia | exact Hnul].
Qed.

(** X19.  With both flags off the interceptor denies nothing, for any
    descriptor and any file system: a run either is undefined (the array
    was left without terminator) or calls the original once and returns
    its result; it never unlinks and never fails a call of its own. *)
Theorem fstat_hook_flags_off (fd buf : Z) (o : os mem) :
  disable_metrics native_config = false ->
  disable_bitmoji native_config = false ->
  hook fd buf o = Fault (o, [])
  \/ hook fd buf o =
       let (r, o') := fstat_original fd buf o in Done r (o', [EvFstat fd buf]).
Proof.
  intros Hm Hb. unfold fstat_hook. rewrite Hm, Hb. cbn [andb].
  destruct (cstr _) as [link|]; [|left; reflexivity].
  destruct (cstr _) as [chars|]; [|left; reflexivity].
  right. reflexivity.
Qed.

End FstatProofs.

(** ** The file-status interceptor on the concrete file system *)

Lemma fstat_hook_denial_frame_witness :
  fstat_hook Z all_on demo_fstat 3 0 (demo_os metrics_path) =
    Done (-1) (unlink Z (demo_os metrics_path) metrics_path, [EvUnlink metrics_path])
  /\ user_mem (unlink Z (demo_os metrics_path) metrics_path)
     = user_mem (demo_os metrics_path).
Proof.
  assert (H : fstat_hook Z all_on demo_fstat 3 0 (demo_os metrics_path) =
              Done (-1) (unlink Z (demo_os metrics_path) metrics_path,
                         [EvUnlink metrics_path])).
  { vm_compute. reflexivity. }
  split; [exact H|].
  apply (proj1 (fstat_hook_denial_frame Z all_on demo_fstat 3 0
                  (demo_os metrics_path) (-1)
                  (unlink Z (demo_os metrics_path) metrics_path)
                  [EvUnlink metrics_path] H)).
  reflexivity.
Defined.

(** C7 fails on a long path.  Descriptor 3 is open on a file of the
    metrics queue whose path has 293 characters, and the metrics flag is
    set: [readlink] fills the 256-byte array and leaves no terminator, the
    conversion to a string runs past the array, and the file is still
    there. *)
Theorem long_metrics_path_not_unlinked :
  disable_metrics all_on = true
  /\ links (demo_os long_metrics_path) !! proc_link 3 = Some long_metrics_path
  /\ found (string_find long_metrics_path METRICS_MARKER) = true
  /\ fstat_hook Z all_on demo_fstat 3 0 (demo_os long_metrics_path)
     = Fault (demo_os long_metrics_path, [])
  /\ long_metrics_path ∈ files (demo_os long_metrics_path).
Proof.
  repeat split; vm_compute; reflexivity.
Qed.

(** C8 fails on a long path.  Descriptor 3 is open on a companion-content
    file whose path has 303 characters, and the companion flag is set:
    the array is left without terminator, and the run is undefined where
    the claim has it return -1. *)
Theorem long_bitmoji_path_not_denied :
  disable_bitmoji all_on = true
  /\ links (demo_os long_bitmoji_path) !! proc_link 3 = Some long_bitmoji_path
  /\ found (string_find long_bitmoji_path METRICS_MARKER) = false
  /\ found (string_find long_bitmoji_path BITMOJI_MARKER) = true
  /\ fstat_hook Z all_on demo_fstat 3 0 (demo_os long_bitmoji_path)
     = Fault (demo_os long_bitmoji_path, []).
Proof. repeat split; vm_compute; reflexivity. Qed.

(** ** Initialisation and configuration *)

Section LibraryProofs.

Variable env : environment.

(** X12.  [init] always allocates the configuration and takes the global
    reference, and requests hooks by what it finds: none at all when
    libclient.so is not mapped (not even the one on [fstat], which lives
    in libc.so), the one on [fstat] alone when the signature is not
    found, and otherwise the one on [fstat] followed by the one on the
    unary call. *)
Theorem init_requests (clazz classloader : Z) (g : globals.t) (evs : list init_event) :
  let client := get_module env "libclient.so" in
  let target := find_signature env (base client) (size client) UNARY_CALL_SIGNATURE in
  let s' := init env clazz classloader (g, evs) in
  globals.native_config s'.1 = Some (new_native_config_t env)
  /\ globals.native_lib_object s'.1 = NewGlobalRef env clazz
  /\ globals.java_vm s'.1 = globals.java_vm g
  /\ (base client = 0 ->
      s'.2 = evs ++ [EvLoadLibrary "client"]
      /\ globals.fstat_original s'.1 = globals.fstat_original g
      /\ globals.unaryCall_original s'.1 = globals.unaryCall_original g)
  /\ (base client <> 0 -> target = 0 ->
      s'.2 = evs ++ [EvLoadLibrary "client";
                     EvDobbyHook (DobbySymbolResolver env "libc.so" "fstat") fstat_hook_fn]
      /\ globals.unaryCall_original s'.1 = globals.unaryCall_original g)
  /\ (base client <> 0 -> target <> 0 ->
      s'.2 = evs ++ [EvLoadLibrary "client";
                     EvDobbyHook (DobbySymbolResolver env "libc.so" "fstat") fstat_hook_fn;
                     EvDobbyHook target unaryCall_hook_fn]
      /\ globals.unaryCall_original s'.1 = trampoline env target).
Proof.
  intros client target s'. unfold s', init. fold client. fold target.
  destruct (Z.eqb_spec (base client) 0) as [E|E].
  - cbn [fst snd globals.native_config globals.native_lib_object globals.java_vm
         globals.fstat_original globals.unaryCall_original].
    repeat split; try reflexivity; intros; contradiction.
  - destruct (Z.eqb_spec target 0) as [T|T];
      cbn [fst snd globals.native_config globals.native_lib_object globals.java_vm
           globals.fstat_original globals.unaryCall_original];
      rewrite <- ?app_assoc; cbn [app];
      repeat split; try reflexivity; intros; contradiction.
Qed.

Lemma init_allocates (clazz classloader : Z) (s : process) :
  globals.native_config (init env clazz classloader s).1
  = Some (new_native_config_t env).
Proof.
  destruct s as [g evs]. unfold init.
  destruct (base _ =? 0); [reflexivity|].
  destruct (find_signature _ _ _ _ =? 0); reflexivity.
Qed.

Lemma load_config_run (b m : bool) (s : process) :
  load_config b m s =
    match globals.native_config s.1 with
    | None => Fault s
    | Some _ =>
        Done tt
          ({| globals.native_config :=
                Some {| disable_bitmoji := b; disable_metrics := m |};
              globals.java_vm := globals.java_vm s.1;
              globals.fstat_original := globals.fstat_original s.1;
              globals.native_lib_object := globals.native_lib_object s.1;
              globals.native_lib_on_unary_call_method :=
                globals.native_lib_on_unary_call_method s.1;
              globals.unaryCall_original := globals.unaryCall_original s.1 |},
           s.2)
    end.
Proof. destruct s as [g evs]. reflexivity. Qed.

(** X13.  The flags pushed with [load_config] after [init] are the flags
    the file-status interceptor decides with from then on; a later push
    replaces them, and a later [init] puts a new object in their place. *)
Theorem load_config_round_trip
    (mem : Type) (fstat_original : Z -> Z -> os mem -> Z * os mem)
    (clazz classloader : Z) (s : process) (b m b' m' : bool)
    (fd buf : Z) (o : os mem) :
  exists s1 s2,
    load_config b m (init env clazz classloader s) = Done tt s1
    /\ fstat_hook_of mem s1.1 fstat_original fd buf o
       = fstat_hook mem {| disable_bitmoji := b; disable_metrics := m |}
           fstat_original fd buf o
    /\ load_config b' m' s1 = Done tt s2
    /\ fstat_hook_of mem s2.1 fstat_original fd buf o
       = fstat_hook mem {| disable_bitmoji := b'; disable_metrics := m' |}
           fstat_original fd buf o
    /\ fstat_hook_of mem (init env clazz classloader s2).1 fstat_original fd buf o
       = fstat_hook mem (new_native_config_t env) fstat_original fd buf o.
Proof.
  eexists _, _. split; [|split; [|split; [|split]]].
  - rewrite load_config_run, init_allocates. reflexivity.
  - reflexivity.
  - rewrite load_config_run. reflexivity.
  - reflexivity.
  - unfold fstat_hook_of. rewrite init_allocates. reflexivity.
Qed.

Lemma run_calls_allocated (calls : list native_call) :
  forall s, globals.native_config s.1 <> None ->
  exists s', run_calls env calls s = Done tt s'
             /\ globals.native_config s'.1 <> None
             /\ (existsb is_hook_request s.2 = true ->
                 existsb is_hook_request s'.2 = true).
Proof.
  induction calls as [|c calls IH]; intros s Hs.
  - exists s. auto.
  - destruct c as [vm|clazz cl|b m]; cbn [run_calls].
    + destruct (IH (JNI_OnLoad vm s).2) as (s' & Hr & Hc & Hh).
      { destruct s as [g evs]. exact Hs. }
      exists s'. split; [exact Hr|]. split; [exact Hc|].
      intros H. apply Hh. destruct s as [g evs]. cbn [JNI_OnLoad snd] in *.
      rewrite existsb_app, H. reflexivity.
    + destruct (IH (init env clazz cl s)) as (s' & Hr & Hc & Hh).
      { rewrite init_allocates. discriminate. }
      exists s'. split; [exact Hr|]. split; [exact Hc|].
      intros H. apply Hh. destruct s as [g evs]. unfold init.
      destruct (base _ =? 0); [|destruct (find_signature _ _ _ _ =? 0)];
        cbn [snd] in *; rewrite !existsb_app, H; reflexivity.
    + rewrite load_config_run.
      destruct (globals.native_config s.1) eqn:E; [|contradiction].
      destruct (IH ({| globals.native_config :=
                         Some {| disable_bitmoji := b; disable_metrics := m |};
                       globals.java_vm := globals.java_vm s.1;
                       globals.fstat_original := globals.fstat_original s.1;
                       globals.native_lib_object := globals.native_lib_object s.1;
                       globals.native_lib_on_unary_call_method :=
                         globals.native_lib_on_unary_call_method s.1;
                       globals.unaryCall_original := globals.unaryCall_original s.1 |},
                    s.2)) as (s' & Hr & Hc & Hh).
      { discriminate. }
      exists s'. auto.
Qed.

Lemma run_calls_unallocated (calls : list native_call) :
  forall s, globals.native_config s.1 = None ->
  (existsb is_hook_request s.2 = true -> False) ->
  ((exists s', run_calls env calls s = Done tt s') <-> init_first calls = true)
  /\ match run_calls env calls s with
     | Done _ s' | Fault s' =>
         existsb is_hook_request s'.2 = true -> globals.native_config s'.1 <> None
     end.
Proof.
  induction calls as [|c calls IH]; intros s Hs Hh.
  - cbn [run_calls init_first]. split; [split; eauto|].
    intros H. contradiction (Hh H).
  - destruct c as [vm|clazz cl|b m]; cbn [run_calls init_first].
    + apply IH.
      * destruct s as [g evs]. exact Hs.
      * destruct s as [g evs]. cbn [JNI_OnLoad snd] in *.
        rewrite existsb_app. cbn [existsb is_hook_request orb].
        rewrite !orb_false_r. exact Hh.
    + destruct (run_calls_allocated calls (init env clazz cl s)) as (s' & Hr & Hc & _).
      { rewrite init_allocates. discriminate. }
      rewrite Hr. split; [split; eauto|]. intros _. exact Hc.
    + rewrite load_config_run, Hs. split.
      * split; [intros [s' H]; discriminate | discriminate].
      * intros H. contradiction (Hh H).
Qed.

(** X14.  From the start of the process, a sequence of calls of
    [JNI_OnLoad], [init] and [load_config] runs through exactly when no
    [load_config] comes before the first [init]: [load_config] writes
    through [native_config] without a test, and only [init] sets it. *)
Theorem load_config_needs_init (calls : list native_call) :
  (exists s', run_calls env calls (globals.initial, []) = Done tt s')
  <-> init_first calls = true.
Proof.
  apply (run_calls_unallocated calls (globals.initial, [])); [reflexivity|].
  discriminate.
Qed.

(** X15.  Whatever the calls, once a hook has been requested the
    configuration object exists: [init] allocates it before it installs
    the hooks, and nothing resets the pointer.  So the file-status
    interceptor, which reads the flags through the pointer without a
    test, runs with the flags of some configuration. *)
Theorem hooks_have_config
    (mem : Type) (fstat_original : Z -> Z -> os mem -> Z * os mem)
    (calls : list native_call) (fd buf : Z) (o : os mem) :
  match run_calls env calls (globals.initial, []) with
  | Done _ s' | Fault s' =>
      existsb is_hook_request s'.2 = true ->
      exists config,
        globals.native_config s'.1 = Some config
        /\ fstat_hook_of mem s'.1 fstat_original fd buf o
           = fstat_hook mem config fstat_original fd buf o
  end.
Proof.
  destruct (run_calls_unallocated calls (globals.initial, []) eq_refl) as [_ H].
  { discriminate. }
  destruct (run_calls env calls (globals.initial, [])) as [[] s'|s'];
    intros Hh; specialize (H Hh); unfold fstat_hook_of;
    destruct (globals.native_config s'.1) as [config|]; try contradiction;
    exists config; split; reflexivity.
Qed.

End LibraryProofs.

(** ** The further properties on the concrete scenes *)

Lemma fstat_hook_sees_witness :
  seen_name 3 "/dev/null" = "/dev/nullf/fd/3"%string
  /\ fstat_hook Z all_on demo_fstat 3 0 (demo_os "/dev/null") =
       Done 0 ({| links := links (demo_os "/dev/null");
                  files := files (demo_os "/dev/null");
                  user_mem := 1 |}, [EvFstat 3 0]).
Proof.
  split; [vm_compute; reflexivity|].
  rewrite (proj1 (fstat_hook_sees Z all_on demo_fstat 3 0 (demo_os "/dev/null")
                    "/dev/null" ltac:(unfold int_range; lia) eq_refl
                    ltac:(vm_compute; lia) eq_refl)).
  vm_compute. reflexivity.
Defined.

Lemma fstat_hook_no_link_witness :
  fstat_hook Z all_on demo_fstat 4 0 (demo_os metrics_path) =
    Done 0 ({| links := links (demo_os metrics_path);
               files := files (demo_os metrics_path);
               user_mem := 1 |}, [EvFstat 4 0]).
Proof.
  apply (fstat_hook_no_link Z all_on demo_fstat 4 0 (demo_os metrics_path)).
  - unfold int_range. lia.
  - vm_compute. reflexivity.
Defined.

Lemma fstat_hook_transparent_witness :
  fstat_hook Z all_on demo_fstat 3 0 (demo_os "/dev/null") =
    Done 0 ({| links := links (demo_os "/dev/null");
               files := files (demo_os "/dev/null");
               user_mem := 1 |}, [EvFstat 3 0]).
Proof.
  apply (fstat_hook_transparent Z all_on demo_fstat 3 0 (demo_os "/dev/null")
           "/dev/null").
  - unfold int_range. lia.
  - vm_compute. reflexivity.
  - vm_compute. lia.
  - vm_compute. reflexivity.
  - intros [_ H]. apply found_contains in H. vm_compute in H. discriminate.
  - intros [_ H]. apply found_contains in H. vm_compute in H. discriminate.
Defined.

Lemma fstat_hook_long_target_witness :
  fstat_hook Z all_off demo_fstat 3 0 (demo_os long_metrics_path) =
    Fault (demo_os long_metrics_path, []).
Proof.
  apply (fstat_hook_long_target Z all_off demo_fstat 3 0 (demo_os long_metrics_path)
           long_metrics_path).
  - unfold int_range. lia.
  - vm_compute. reflexivity.
  - vm_compute. lia.
  - vm_compute. reflexivity.
Defined.


Lemma fstat_hook_bitmoji_witness :
  fstat_hook Z all_on demo_fstat 3 0 (demo_os bitmoji_path) =
    Done (-1) (demo_os bitmoji_path, []).
Proof.
  apply (fstat_hook_bitmoji Z all_on demo_fstat 3 0 (demo_os bitmoji_path) bitmoji_path).
  - vm_compute. reflexivity.
  - vm_compute. lia.
  - vm_compute. reflexivity.
  - vm_compute. reflexivity.
  - reflexivity.
  - vm_compute. reflexivity.
Defined.


Lemma unaryCall_hook_rewrite_frame_witness :
  exists st',
    w_trace (final (unaryCall_hook demo_original says_rewrite demo_malloc
                      (demo_args 100) demo_world)) =
      [EvGetRegion 1004 3; EvCallback "/snap/Send" [x61; x62; x63];
       EvMalloc 6 2000; EvMemcpy 2000 1000 4;
       EvMemcpyArray 2004 [x01; x02]; EvFree 1000;
       EvUnaryCall (demo_args 100) st']
    /\ ptrs st' = ptrs demo_store
    /\ byte_buffers st' = byte_buffers demo_store
    /\ (forall q, q <> 300 -> slices st' !! q = slices demo_store !! q)
    /\ (forall b, b <> 1000 -> b <> 2000 -> blocks st' !! b = blocks demo_store !! b)
    /\ (forall x, ~ (1000 <= x < 1000 + Z.of_nat (Z.to_nat 7)) ->
                  ~ (2000 <= x < 2000 + (4 + 2)) ->
                  cells st' !! x = cells demo_store !! x)
    /\ (forall x, 1000 <= x < 1000 + Z.of_nat (Z.to_nat 7) -> cells st' !! x = None).
Proof.
  apply (unaryCall_hook_rewrite_frame demo_original says_rewrite demo_malloc
           (demo_args 100) demo_world 300
           {| grpc.ref_counter := 1000; grpc.length := 3; grpc.data := 1004 |}
           [x61; x62; x63] {| canceled := false; buffer := [x01; x02] |}
           4 7 [Val x11; Val x22; Val x33; Val x44]).
  - vm_compute. reflexivity.
  - simpl. lia.
  - vm_compute. reflexivity.
  - reflexivity.
  - reflexivity.
  - vm_compute. reflexivity.
  - lia.
  - vm_compute. reflexivity.
  - vm_compute. reflexivity.
  - vm_compute. reflexivity.
Defined.

Lemma unaryCall_hook_rewrite_invariant_witness :
  exists st' w',
    unaryCall_hook demo_original says_rewrite demo_malloc (demo_args 100) demo_world
      = Done 77 w'
    /\ In (EvUnaryCall (demo_args 100) st') (w_trace w')
    /\ w_store w' = st'
    /\ ref_counter_struct_size w' = Some 4
    /\ cache_agrees w' 4 = true
    /\ slice_invariant st' (demo_args 100) 4
         [Val x11; Val x22; Val x33; Val x44] [x01; x02].
Proof.
  apply (unaryCall_hook_rewrite_invariant demo_original says_rewrite demo_malloc
           (demo_args 100) demo_world 4 [Val x11; Val x22; Val x33; Val x44]
           [x61; x62; x63] {| canceled := false; buffer := [x01; x02] |}).
  - exists 300, {| grpc.ref_counter := 1000; grpc.length := 3; grpc.data := 1004 |}, 7.
    repeat split; try (vm_compute; reflexivity). simpl. lia.
  - reflexivity.
  - reflexivity.
  - reflexivity.
  - vm_compute. reflexivity.
  - vm_compute. reflexivity.
Defined.

Lemma unaryCall_hook_rewrite_dangling_witness :
  exists st',
    In (EvUnaryCall (demo_args 100) st') (w_trace shared_world_2)
    /\ slice_of st' (demo_args 103) =
         Some (303, {| grpc.ref_counter := 1000; grpc.length := 3; grpc.data := 1004 |})
    /\ payload_of st' {| grpc.ref_counter := 1000; grpc.length := 3; grpc.data := 1004 |}
       = None.
Proof.
  apply (unaryCall_hook_rewrite_dangling demo_original says_rewrite demo_malloc
           (demo_args 100) (demo_args 103) shared_world 300 303
           {| grpc.ref_counter := 1000; grpc.length := 3; grpc.data := 1004 |}
           {| grpc.ref_counter := 1000; grpc.length := 3; grpc.data := 1004 |}
           [x61; x62; x63] {| canceled := false; buffer := [x01; x02] |}
           4 7 [Val x11; Val x22; Val x33; Val x44]).
  - vm_compute. reflexivity.
  - simpl. lia.
  - vm_compute. reflexivity.
  - reflexivity.
  - reflexivity.
  - vm_compute. reflexivity.
  - lia.
  - vm_compute. reflexivity.
  - vm_compute. reflexivity.
  - vm_compute. reflexivity.
  - vm_compute. reflexivity.
  - lia.
  - simpl. lia.
  - vm_compute. reflexivity.
Defined.

Lemma unaryCall_hook_returns_witness :
  (exists es,
     w_trace (log demo_world [EvGetRegion 1004 3; EvCallback "/snap/Send" [x61; x62; x63]])
       = w_trace demo_world ++ es
     /\ existsb is_unary_call es = false
     /\ 0 = 0
     /\ w_store (log demo_world [EvGetRegion 1004 3;
                                 EvCallback "/snap/Send" [x61; x62; x63]])
        = w_store demo_world
     /\ ref_counter_struct_size
          (log demo_world [EvGetRegion 1004 3; EvCallback "/snap/Send" [x61; x62; x63]])
        = ref_counter_struct_size demo_world)
  \/ (exists es st',
       w_trace (log demo_world [EvGetRegion 1004 3;
                                EvCallback "/snap/Send" [x61; x62; x63]])
         = w_trace demo_world ++ es ++ [EvUnaryCall (demo_args 100) st']
       /\ existsb is_unary_call es = false
       /\ 0 = (demo_original (demo_args 100) st').1
       /\ w_store (log demo_world [EvGetRegion 1004 3;
                                   EvCallback "/snap/Send" [x61; x62; x63]])
          = (demo_original (demo_args 100) st').2
       /\ ptrs st' = ptrs (w_store demo_world)
       /\ byte_buffers st' = byte_buffers (w_store demo_world)).
Proof.
  apply (unaryCall_hook_returns demo_original says_cancel demo_malloc
           (demo_args 100) demo_world 0).
  vm_compute. reflexivity.
Defined.

Lemma unaryCall_hook_stops_before_dispatch_witness :
  exists es,
    w_trace (final (unaryCall_hook demo_original says_rewrite no_memory
                      (demo_args 100) demo_world)) = w_trace demo_world ++ es
    /\ existsb is_unary_call es = false.
Proof.
  apply (unaryCall_hook_stops_before_dispatch demo_original says_rewrite no_memory
           (demo_args 100) demo_world).
  vm_compute. reflexivity.
Defined.

Lemma header_size_never_changes_witness :
  ref_counter_struct_size
    (intercept_all demo_original says_rewrite demo_malloc
       [demo_args 101; demo_args 102; demo_args 0] demo_world_2) = Some 4.
Proof.
  apply (header_size_never_changes demo_original says_rewrite demo_malloc
           [demo_args 101; demo_args 102; demo_args 0] demo_world_2 4).
  vm_compute. reflexivity.
Defined.

Lemma init_requests_witness :
  (init demo_env 10 20 (globals.initial, [])).2 =
    [EvLoadLibrary "client"; EvDobbyHook 500 fstat_hook_fn;
     EvDobbyHook 4160 unaryCall_hook_fn]
  /\ (init bare_env 10 20 (globals.initial, [])).2 = [EvLoadLibrary "client"]
  /\ globals.native_config (init bare_env 10 20 (globals.initial, [])).1 = Some all_off.
Proof.
  split; [|split].
  - apply (proj1 (proj2 (proj2 (proj2 (proj2 (proj2
             (init_requests demo_env 10 20 globals.initial []))))) ltac:(discriminate)
             ltac:(discriminate))).
  - apply (proj1 (proj1 (proj2 (proj2 (proj2
             (init_requests bare_env 10 20 globals.initial [])))) eq_refl)).
  - apply (proj1 (init_requests bare_env 10 20 globals.initial [])).
Defined.

Lemma load_config_needs_init_witness :
  (exists s', run_calls demo_env [CallOnLoad 1; CallInit 10 20; CallLoadConfig true false]
                (globals.initial, []) = Done tt s')
  /\ ~ (exists s', run_calls demo_env [CallOnLoad 1; CallLoadConfig true false; CallInit 10 20]
                     (globals.initial, []) = Done tt s').
Proof.
  split.
  - apply (proj2 (load_config_needs_init demo_env
                    [CallOnLoad 1; CallInit 10 20; CallLoadConfig true false])).
    reflexivity.
  - intros H.
    apply (proj1 (load_config_needs_init demo_env
                    [CallOnLoad 1; CallLoadConfig true false; CallInit 10 20])) in H.
    discriminate H.
Defined.

Lemma hooks_have_config_witness :
  exists config,
    Some {| disable_bitmoji := true; disable_metrics := false |} = Some config
    /\ fstat_hook Z {| disable_bitmoji := true; disable_metrics := false |}
         demo_fstat 3 0 (demo_os metrics_path)
       = fstat_hook Z config demo_fstat 3 0 (demo_os metrics_path).
Proof.
  apply (hooks_have_config demo_env Z demo_fstat
           [CallOnLoad 1; CallInit 10 20; CallLoadConfig true false]
           3 0 (demo_os metrics_path)).
  vm_compute. reflexivity.
Defined.

Lemma unaryCall_hook_free_fails_witness :
  exists w',
    unaryCall_hook demo_original says_rewrite demo_malloc (demo_args 101) unowned_world
      = Fault w'
    /\ w_trace w' =
         [EvGetRegion 5008 1; EvCallback "/snap/Send" [x7a];
          EvMalloc 10 2000; EvMemcpy 2000 5000 8;
          EvMemcpyArray 2008 [x01; x02]; EvFree 5000]
    /\ slice_of (w_store w') (demo_args 101) =
         Some (301, {| grpc.ref_counter := 5000; grpc.length := 1; grpc.data := 5008 |})
    /\ blocks (w_store w') = <[2000 := 10]> (blocks (w_store unowned_world)).
Proof.
  apply (unaryCall_hook_free_fails demo_original says_rewrite demo_malloc
           (demo_args 101) unowned_world 301
           {| grpc.ref_counter := 5000; grpc.length := 1; grpc.data := 5008 |}
           [x7a] {| canceled := false; buffer := [x01; x02] |}
           8 [Val xa1; Val xa2; Val xa3; Val xa4; Val xa5; Val xa6; Val xa7; Val xa8]).
  - vm_compute. reflexivity.
  - simpl. lia.
  - vm_compute. reflexivity.
  - reflexivity.
  - reflexivity.
  - vm_compute. reflexivity.
  - lia.
  - vm_compute. reflexivity.
  - vm_compute. reflexivity.
  - vm_compute. reflexivity.
Defined.

Lemma fstat_hook_flags_off_witness :
  fstat_hook Z all_off demo_fstat 3 0 (demo_os metrics_path) =
    Fault (demo_os metrics_path, [])
  \/ fstat_hook Z all_off demo_fstat 3 0 (demo_os metrics_path) =
       Done 0 ({| links := links (demo_os metrics_path);
                  files := files (demo_os metrics_path);
                  user_mem := 1 |}, [EvFstat 3 0]).
Proof.
  apply (fstat_hook_flags_off Z all_off demo_fstat 3 0 (demo_os metrics_path));
    reflexivity.
Defined.
